(** * The invitation component of the Parsec backend

    A shallow embedding of [parsec/backend/invite.py]: the conduit state
    table, the claimer presence tracker, the [invite_new] / [invite_info]
    handlers, the twelve conduit-step handlers and [conduit_exchange],
    followed by the properties established about them.

    The coroutines of [BaseInviteComponent] are functions in a small monad
    over a world: the state of whatever implements the abstract methods
    ([_conduit_talk], [_conduit_listen], [new_for_user], ...), which are the
    methods of a class and are left arbitrary; the resumptions the event bus
    will give to [await waiter.wait()]; and a log of the calls made. A
    coroutine returns, raises, or stays suspended in a wait that is never
    resumed. Dictionaries are [gmap]s and sets are [gset]s. *)

From stdpp Require Import gmap strings list.

Local Open Scope string_scope.
Local Open Scope list_scope.

(** ** Identifiers and payloads *)

(** [OrganizationID] and [UserID] are string-like identifiers, a [UUID] is a
    128-bit number, payloads are Python [bytes]. *)
Definition OrganizationID := string.
Definition UserID := string.
Definition UUID := N.
Definition bytes := list Byte.byte.

(** ** Exceptions *)

(** The [InvitationError] hierarchy of the module; [OtherError] stands for
    any exception outside of it (it is never caught by the handlers). *)
Inductive Exn :=
| InvitationError
| InvitationNotFoundError
| InvitationAlreadyDeletedError
| InvitationInvalidStateError
| OtherError (name : string).

#[global] Instance Exn_eq_dec : EqDecision Exn.
Proof. solve_decision. Defined.

(** ** Conduit states *)

Inductive ConduitState :=
| STATE_1_WAIT_PEERS
| STATE_2_1_CLAIMER_HASHED_NONCE
| STATE_2_2_GREETER_NONCE
| STATE_2_3_CLAIMER_NONCE
| STATE_3_1_CLAIMER_TRUST
| STATE_3_2_GREETER_TRUST
| STATE_4_COMMUNICATE.

#[global] Instance ConduitState_eq_dec : EqDecision ConduitState.
Proof. solve_decision. Defined.

(** The value carried by each member of the enumeration. *)
Definition ConduitState_value (s : ConduitState) : string :=
  match s with
  | STATE_1_WAIT_PEERS => "1_WAIT_PEERS"
  | STATE_2_1_CLAIMER_HASHED_NONCE => "2_1_CLAIMER_HASHED_NONCE"
  | STATE_2_2_GREETER_NONCE => "2_2_GREETER_NONCE"
  | STATE_2_3_CLAIMER_NONCE => "2_3_CLAIMER_NONCE"
  | STATE_3_1_CLAIMER_TRUST => "3_1_CLAIMER_TRUST"
  | STATE_3_2_GREETER_TRUST => "3_2_GREETER_TRUST"
  | STATE_4_COMMUNICATE => "4_COMMUNICATE"
  end.

Definition ConduitState_index (s : ConduitState) : nat :=
  match s with
  | STATE_1_WAIT_PEERS => 0
  | STATE_2_1_CLAIMER_HASHED_NONCE => 1
  | STATE_2_2_GREETER_NONCE => 2
  | STATE_2_3_CLAIMER_NONCE => 3
  | STATE_3_1_CLAIMER_TRUST => 4
  | STATE_3_2_GREETER_TRUST => 5
  | STATE_4_COMMUNICATE => 6
  end.

Definition ConduitState_of_index (n : nat) : ConduitState :=
  match n with
  | 0 => STATE_1_WAIT_PEERS
  | 1 => STATE_2_1_CLAIMER_HASHED_NONCE
  | 2 => STATE_2_2_GREETER_NONCE
  | 3 => STATE_2_3_CLAIMER_NONCE
  | 4 => STATE_3_1_CLAIMER_TRUST
  | 5 => STATE_3_2_GREETER_TRUST
  | _ => STATE_4_COMMUNICATE
  end.

#[global] Instance ConduitState_countable : Countable ConduitState :=
  inj_countable' ConduitState_index ConduitState_of_index
    (λ s, match s with
          | STATE_1_WAIT_PEERS | STATE_2_1_CLAIMER_HASHED_NONCE
          | STATE_2_2_GREETER_NONCE | STATE_2_3_CLAIMER_NONCE
          | STATE_3_1_CLAIMER_TRUST | STATE_3_2_GREETER_TRUST
          | STATE_4_COMMUNICATE => eq_refl
          end).

(** The members of the enumeration, in declaration order. *)
Definition ConduitState_members : list ConduitState :=
  [ STATE_1_WAIT_PEERS; STATE_2_1_CLAIMER_HASHED_NONCE; STATE_2_2_GREETER_NONCE;
    STATE_2_3_CLAIMER_NONCE; STATE_3_1_CLAIMER_TRUST; STATE_3_2_GREETER_TRUST;
    STATE_4_COMMUNICATE ].

(** The module-level dictionary [NEXT_CONDUIT_STATE]. *)
Definition NEXT_CONDUIT_STATE : gmap ConduitState ConduitState :=
  list_to_map
    [ (STATE_1_WAIT_PEERS, STATE_2_1_CLAIMER_HASHED_NONCE);
      (STATE_2_1_CLAIMER_HASHED_NONCE, STATE_2_2_GREETER_NONCE);
      (STATE_2_2_GREETER_NONCE, STATE_2_3_CLAIMER_NONCE);
      (STATE_2_3_CLAIMER_NONCE, STATE_3_1_CLAIMER_TRUST);
      (STATE_3_1_CLAIMER_TRUST, STATE_3_2_GREETER_TRUST);
      (STATE_3_2_GREETER_TRUST, STATE_4_COMMUNICATE);
      (STATE_4_COMMUNICATE, STATE_4_COMMUNICATE) ].

(** ** Enumerations declared in [parsec.api] *)

(** Modelled from the spec: [InvitationStatus], [InvitationType] and
    [UserProfile] are imported from [parsec.api.protocol] / [parsec.api.data];
    their members are the ones the data model and the handshake surface list. *)
Inductive InvitationStatus := IDLE | READY | DELETED.
Inductive InvitationType := USER | DEVICE.
Inductive UserProfile := ADMIN | STANDARD | OUTSIDER.

#[global] Instance InvitationStatus_eq_dec : EqDecision InvitationStatus.
Proof. solve_decision. Defined.
#[global] Instance InvitationType_eq_dec : EqDecision InvitationType.
Proof. solve_decision. Defined.
#[global] Instance UserProfile_eq_dec : EqDecision UserProfile.
Proof. solve_decision. Defined.

(** ** Claimer presence tracker *)

(** The keyword arguments of an [invite.status_changed] event. *)
Record StatusChanged := {
  sc_organization_id : OrganizationID;
  sc_greeter : UserID;
  sc_token : UUID;
  sc_status : InvitationStatus;
}.

(** [self._claimers_ready[organization_id]] on the [defaultdict(set)]: a
    missing organization reads as the empty set. *)
Definition claimers_of (claimers_ready : gmap OrganizationID (gset UUID))
    (organization_id : OrganizationID) : gset UUID :=
  default ∅ (claimers_ready !! organization_id).

(** The callback connected to [invite.status_changed] in [__init__]; the
    dictionary it closes over is passed explicitly and returned updated. *)
Definition _on_status_changed (claimers_ready : gmap OrganizationID (gset UUID))
    (event : string) (organization_id : OrganizationID) (greeter : UserID)
    (token : UUID) (status : InvitationStatus) : gmap OrganizationID (gset UUID) :=
  if decide (status = READY) then
    <[organization_id := claimers_of claimers_ready organization_id ∪ {[token]}]>
      claimers_ready
  else
    <[organization_id := claimers_of claimers_ready organization_id ∖ {[token]}]>
      claimers_ready.

(** The event bus delivering one event to the callback. *)
Definition deliver_status_changed (claimers_ready : gmap OrganizationID (gset UUID))
    (ev : StatusChanged) : gmap OrganizationID (gset UUID) :=
  _on_status_changed claimers_ready "invite.status_changed"
    (sc_organization_id ev) (sc_greeter ev) (sc_token ev) (sc_status ev).

(** The tracker after a sequence of events, starting from the empty
    [defaultdict(set)] built by [__init__]. *)
Definition claimers_ready_after (evs : list StatusChanged)
    : gmap OrganizationID (gset UUID) :=
  foldl deliver_status_changed ∅ evs.

(** Whether an event is about the given organization and token. *)
Definition concerns (organization_id : OrganizationID) (token : UUID)
    (ev : StatusChanged) : Prop :=
  sc_organization_id ev = organization_id ∧ sc_token ev = token.

#[global] Instance concerns_dec o t ev : Decision (concerns o t ev).
Proof. unfold concerns. apply _. Defined.

(** The status of the most recent event about [(organization_id, token)]. *)
Definition latest_status (organization_id : OrganizationID) (token : UUID)
    (evs : list StatusChanged) : option InvitationStatus :=
  sc_status <$> last (filter (concerns organization_id token) evs).

(** ** Records of the data model *)

(** Modelled from the spec: [HumanHandle] and [PublicKey] are declared in
    [parsec.api.protocol] and [parsec.crypto]; a handle is an e-mail and a
    label. A public key is a fixed-size byte string of [PublicKey_SIZE]
    bytes, read back by [key.encode()]; [PublicKey(raw)] raises [ValueError]
    when [raw] has any other length. *)
Record HumanHandle := { email : string; label : string }.

Definition PublicKey_SIZE : nat := 32.

Record PublicKey := {
  encode : bytes;
  encode_size : Is_true (bool_decide (length encode = PublicKey_SIZE));
}.

(** [PublicKey(raw)]. *)
Definition PublicKey_of_raw (raw : bytes) : Exn + PublicKey :=
  match bool_decide (length raw = PublicKey_SIZE) as sized
    return (Is_true sized → PublicKey) → Exn + PublicKey
  with
  | true => λ key, inr (key I)
  | false => λ _, inl (OtherError "ValueError")
  end (λ size, {| encode := raw; encode_size := size |}).

Module ConduitListenCtx.
Record t := {
  organization_id : OrganizationID;
  greeter : option UserID;
  token : UUID;
  state : ConduitState;
  payload : bytes;
  peer_payload : option bytes;
}.
Definition is_greeter (self : t) : bool :=
  match greeter self with Some _ => true | None => false end.
End ConduitListenCtx.

Module UserInvitation.
Record t := {
  greeter_user_id : UserID;
  greeter_human_handle : option HumanHandle;
  claimer_email : string;
  token : UUID;
  created_on : Z;
  status : InvitationStatus;
}.
End UserInvitation.

Module DeviceInvitation.
Record t := {
  greeter_user_id : UserID;
  greeter_human_handle : option HumanHandle;
  token : UUID;
  created_on : Z;
  status : InvitationStatus;
}.
End DeviceInvitation.

(** [Invitation = Union[UserInvitation, DeviceInvitation]]. *)
Inductive Invitation :=
| AUserInvitation (invitation : UserInvitation.t)
| ADeviceInvitation (invitation : DeviceInvitation.t).

(** [invitation.token] and [invitation.status], whichever the class. *)
Definition Invitation_token (invitation : Invitation) : UUID :=
  match invitation with
  | AUserInvitation i => UserInvitation.token i
  | ADeviceInvitation i => DeviceInvitation.token i
  end.

Definition Invitation_status (invitation : Invitation) : InvitationStatus :=
  match invitation with
  | AUserInvitation i => UserInvitation.status i
  | ADeviceInvitation i => DeviceInvitation.status i
  end.

(** ** Requests and replies *)

(** The client context left by an [AUTHENTICATED] handshake. *)
Module Authenticated.
Record t := {
  organization_id : OrganizationID;
  user_id : UserID;
  profile : UserProfile;
}.
End Authenticated.

(** The client context left by an [INVITED] handshake. *)
Module Invited.
Record t := {
  organization_id : OrganizationID;
  invitation : Invitation;
}.
End Invited.

(** A request as returned by [req_load]: the fields the handlers read from
    [msg]. Schema validation happens in [req_load] ([parsec.api.protocol]),
    before any handler logic; a handler only reads the fields of its own
    command. *)
Module Msg.
Record t := {
  type : InvitationType;
  send_email : bool;
  claimer_email : string;
  token : UUID;
  claimer_public_key : PublicKey;
  greeter_public_key : PublicKey;
  claimer_hashed_nonce : bytes;
  greeter_nonce : bytes;
  claimer_nonce : bytes;
  payload : bytes;
}.
End Msg.

(** Values stored in reply dictionaries. *)
Inductive Value :=
| VStr (s : string)
| VBytes (b : bytes)
| VToken (token : UUID)
| VKey (key : PublicKey)
| VType (type : InvitationType)
| VUserID (user_id : UserID)
| VHandle (handle : option HumanHandle).

Inductive Serializer :=
| invite_new_serializer
| invite_info_serializer
| invite_1_claimer_wait_peer_serializer
| invite_1_greeter_wait_peer_serializer
| invite_2a_claimer_send_hashed_nonce_serializer
| invite_2a_greeter_get_hashed_nonce_serializer
| invite_2b_greeter_send_nonce_serializer
| invite_2b_claimer_send_nonce_serializer
| invite_3a_greeter_wait_peer_trust_serializer
| invite_3a_claimer_signify_trust_serializer
| invite_3b_claimer_wait_peer_trust_serializer
| invite_3b_greeter_signify_trust_serializer
| invite_4_greeter_communicate_serializer
| invite_4_claimer_communicate_serializer.

(** What a handler returns: either [serializer.rep_dump(data)], kept as the
    serializer and the dictionary handed to it, or a bare dictionary. *)
Inductive Reply :=
| rep_dump (serializer : Serializer) (data : gmap string Value)
| bare (data : gmap string Value).

Definition Reply_data (rep : Reply) : gmap string Value :=
  match rep with rep_dump _ data | bare data => data end.

(** The ["status"] entry of a reply, if it has one. *)
Definition Reply_status (rep : Reply) : option Value := Reply_data rep !! "status".

(** ** The abstract methods and the event bus *)

(** The methods [BaseInviteComponent] leaves to its implementations, acting
    on the implementation's state [S]. A raised exception is a left
    injection. [new_for_user] and [new_for_device] raise nothing. *)
Class InviteBackend (S : Type) := {
  _conduit_talk :
    OrganizationID → option UserID → UUID → ConduitState → bytes →
    S → (Exn + ConduitListenCtx.t) * S;
  _conduit_listen : ConduitListenCtx.t → S → (Exn + option bytes) * S;
  new_for_user : OrganizationID → UserID → string → S → UserInvitation.t * S;
  new_for_device : OrganizationID → UserID → S → DeviceInvitation.t * S;
  info : OrganizationID → UUID → S → (Exn + Invitation) * S;
}.

(** One resumption of [await waiter.wait()]: the time the coroutine stayed
    suspended, in seconds, and what the other requests did to the
    implementation's state in the meantime. *)
Record Wakeup (S : Type) := {
  waited : nat;
  meanwhile : S → S;
}.
Arguments waited {S} _.
Arguments meanwhile {S} _.

(** The calls a request makes on the event bus and on the abstract methods,
    each with what it answered. [WaiterWait None] is a wait that is never
    resumed. *)
Inductive Call :=
| WaiterOn (event : string) (filter : string → OrganizationID → UUID → bool)
| WaiterExit
| WaiterWait (resumed_after : option nat)
| WaiterClear
| ConduitTalk (organization_id : OrganizationID) (greeter : option UserID)
    (token : UUID) (state : ConduitState) (payload : bytes)
    (answer : Exn + ConduitListenCtx.t)
| ConduitListen (ctx : ConduitListenCtx.t) (answer : Exn + option bytes)
| NewForUser (organization_id : OrganizationID) (greeter_user_id : UserID)
    (claimer_email : string) (answer : UserInvitation.t)
| NewForDevice (organization_id : OrganizationID) (greeter_user_id : UserID)
    (answer : DeviceInvitation.t).

(** What a request runs against: the implementation's state, the
    resumptions its waits will get (when none is left the wait stays
    suspended), and the calls made so far. *)
Record World (S : Type) := {
  backend : S;
  wakeups : list (Wakeup S);
  calls : list Call;
}.
Arguments backend {S} _.
Arguments wakeups {S} _.
Arguments calls {S} _.

(** How a coroutine ends: it returns, it raises, or it stays suspended in a
    wait that is never resumed. Nothing in the module cancels a coroutine,
    and a cancellation coming from its caller is not part of a run. *)
Inductive Outcome (A : Type) :=
| Returned (a : A)
| Raised (e : Exn)
| Blocked.
Arguments Returned {A} a.
Arguments Raised {A} e.
Arguments Blocked {A}.

Definition M (S A : Type) : Type := World S → Outcome A * World S.

#[global] Instance M_ret {S} : MRet (M S) := λ A a w, (Returned a, w).

#[global] Instance M_bind {S} : MBind (M S) := λ A B k m w,
  match m w with
  | (Returned a, w') => k a w'
  | (Raised e, w') => (Raised e, w')
  | (Blocked, w') => (Blocked, w')
  end.

Definition record_call {S} (c : Call) (w : World S) : World S :=
  {| backend := backend w; wakeups := wakeups w; calls := calls w ++ [c] |}.

(** [try: body / except ...: handler / else-and-after: orelse]. *)
Definition try_except {S A B} (body : M S A) (except : Exn → option (M S B))
    (orelse : A → M S B) : M S B := λ w,
  match body w with
  | (Returned a, w') => orelse a w'
  | (Raised e, w') =>
      match except e with
      | Some handler => handler w'
      | None => (Raised e, w')
      end
  | (Blocked, w') => (Blocked, w')
  end.

(** A call that touches nothing of the world: it returns its value or
    raises its exception. *)
Definition returned_or_raised {S A} (result : Exn + A) : M S A := λ w,
  match result with
  | inl e => (Raised e, w)
  | inr a => (Returned a, w)
  end.

(** [with self._event_bus.waiter_on(event, filter=filter) as waiter: body]:
    the waiter is registered, the body runs, and the waiter is released when
    the block is left by a return or by an exception. *)
Definition with_waiter_on {S A} (event : string)
    (filter : string → OrganizationID → UUID → bool) (body : M S A) : M S A := λ w,
  match body (record_call (WaiterOn event filter) w) with
  | (Blocked, w') => (Blocked, w')
  | (out, w') => (out, record_call WaiterExit w')
  end.

(** ** The component *)

Definition PEER_EVENT_MAX_WAIT : nat := 300.

(** The closure [_conduit_updated_filter] built by [conduit_exchange]; its
    first two arguments are the captured [filter_organization_id] and
    [filter_token]. *)
Definition _conduit_updated_filter (filter_organization_id : OrganizationID)
    (filter_token : UUID) (event : string) (organization_id : OrganizationID)
    (token : UUID) : bool :=
  bool_decide (organization_id = filter_organization_id)
  && bool_decide (token = filter_token).

Section Component.
Context {S : Type} `{!InviteBackend S}.

(** [await self._conduit_talk(...)]. *)
Definition call_conduit_talk (organization_id : OrganizationID)
    (greeter : option UserID) (token : UUID) (state : ConduitState)
    (payload : bytes) : M S ConduitListenCtx.t := λ w,
  let '(answer, s) := _conduit_talk organization_id greeter token state payload (backend w) in
  let w' := {| backend := s; wakeups := wakeups w;
               calls := calls w ++ [ConduitTalk organization_id greeter token state payload answer] |} in
  match answer with
  | inl e => (Raised e, w')
  | inr listen_ctx => (Returned listen_ctx, w')
  end.

(** [await self._conduit_listen(ctx)]. *)
Definition call_conduit_listen (ctx : ConduitListenCtx.t) : M S (option bytes) := λ w,
  let '(answer, s) := _conduit_listen ctx (backend w) in
  let w' := {| backend := s; wakeups := wakeups w;
               calls := calls w ++ [ConduitListen ctx answer] |} in
  match answer with
  | inl e => (Raised e, w')
  | inr peer_payload => (Returned peer_payload, w')
  end.

(** [await self.new_for_user(...)] and [await self.new_for_device(...)]. *)
Definition call_new_for_user (organization_id : OrganizationID)
    (greeter_user_id : UserID) (claimer_email : string) : M S UserInvitation.t := λ w,
  let '(invitation, s) := new_for_user organization_id greeter_user_id claimer_email (backend w) in
  (Returned invitation,
   {| backend := s; wakeups := wakeups w;
      calls := calls w ++ [NewForUser organization_id greeter_user_id claimer_email invitation] |}).

Definition call_new_for_device (organization_id : OrganizationID)
    (greeter_user_id : UserID) : M S DeviceInvitation.t := λ w,
  let '(invitation, s) := new_for_device organization_id greeter_user_id (backend w) in
  (Returned invitation,
   {| backend := s; wakeups := wakeups w;
      calls := calls w ++ [NewForDevice organization_id greeter_user_id invitation] |}).

(** The [while True] loop of [conduit_exchange], by recursion on the
    resumptions still to come ([pending] is [wakeups w]): each round is
    [await waiter.wait()], [waiter.clear()], [await self._conduit_listen]. *)
Fixpoint wait_and_listen (listen_ctx : ConduitListenCtx.t)
    (pending : list (Wakeup S)) (w : World S) : Outcome bytes * World S :=
  match pending with
  | [] => (Blocked, record_call (WaiterWait None) w)
  | wk :: later =>
      let w1 := {| backend := meanwhile wk (backend w); wakeups := later;
                   calls := calls w ++ [WaiterWait (Some (waited wk))] |} in
      let w2 := record_call WaiterClear w1 in
      match call_conduit_listen listen_ctx w2 with
      | (Returned (Some peer_payload), w3) => (Returned peer_payload, w3)
      | (Returned None, w3) => wait_and_listen listen_ctx later w3
      | (Raised e, w3) => (Raised e, w3)
      | (Blocked, w3) => (Blocked, w3)
      end
  end.

Definition while_True_wait_and_listen (listen_ctx : ConduitListenCtx.t) : M S bytes :=
  λ w, wait_and_listen listen_ctx (wakeups w) w.

Definition conduit_exchange (organization_id : OrganizationID)
    (greeter : option UserID) (token : UUID) (state : ConduitState)
    (payload : bytes) : M S bytes :=
  let filter_organization_id := organization_id in
  let filter_token := token in
  with_waiter_on "invite.conduit_updated"
    (_conduit_updated_filter filter_organization_id filter_token)
    (listen_ctx ← call_conduit_talk organization_id greeter token state payload;
     while_True_wait_and_listen listen_ctx).

(** *** [invite_new] and [invite_info] *)

Definition api_invite_new (client_ctx : Authenticated.t) (msg : Msg.t) : M S Reply :=
  let finish (token : UUID) : M S Reply :=
    mret (rep_dump invite_new_serializer
            {[ "status" := VStr "ok"; "token" := VToken token ]}) in
  if decide (Msg.type msg = USER) then
    if decide (Authenticated.profile client_ctx ≠ ADMIN) then
      mret (rep_dump invite_new_serializer {[ "status" := VStr "not_allowed" ]})
    else if Msg.send_email msg then
      mret (rep_dump invite_new_serializer {[ "status" := VStr "not_implemented" ]})
    else
      invitation ← call_new_for_user
        (Authenticated.organization_id client_ctx)
        (Authenticated.user_id client_ctx)
        (Msg.claimer_email msg);
      finish (UserInvitation.token invitation)
  else
    invitation ← call_new_for_device
      (Authenticated.organization_id client_ctx)
      (Authenticated.user_id client_ctx);
    finish (DeviceInvitation.token invitation).

Definition api_invite_info (client_ctx : Invited.t) (msg : Msg.t) : M S Reply :=
  let invitation := Invited.invitation client_ctx in
  let rep :=
    match invitation with
    | AUserInvitation invitation =>
        {[ "type" := VType USER;
           "claimer_email" := VStr (UserInvitation.claimer_email invitation);
           "greeter_user_id" := VUserID (UserInvitation.greeter_user_id invitation);
           "greeter_human_handle" :=
             VHandle (UserInvitation.greeter_human_handle invitation) ]}
    | ADeviceInvitation invitation =>
        {[ "type" := VType DEVICE;
           "greeter_user_id" := VUserID (DeviceInvitation.greeter_user_id invitation);
           "greeter_human_handle" :=
             VHandle (DeviceInvitation.greeter_human_handle invitation) ]}
    end in
  mret (rep_dump invite_info_serializer rep).

(** *** The conduit-step handlers

    Each one is [try: ... await self.conduit_exchange(...) ... except
    InvitationNotFoundError / InvitationAlreadyDeletedError /
    InvitationInvalidStateError: return {"status": ...}] followed by the
    [rep_dump] of the successful reply. The two state-1 handlers build
    [PublicKey(...)] from the payload they got, after the [try] statement: an
    exception of the constructor is not caught. The empty payload [b""] is
    [[]]. *)

Definition api_invite_1_claimer_wait_peer (client_ctx : Invited.t) (msg : Msg.t)
    : M S Reply :=
  try_except
    (conduit_exchange (Invited.organization_id client_ctx) None
       (Invitation_token (Invited.invitation client_ctx))
       STATE_1_WAIT_PEERS (encode (Msg.claimer_public_key msg)))
    (λ e, match e with
          | InvitationNotFoundError =>
              Some (mret (bare {[ "status" := VStr "not_found" ]}))
          | InvitationAlreadyDeletedError =>
              Some (mret (bare {[ "status" := VStr "already_deleted" ]}))
          | InvitationInvalidStateError =>
              Some (mret (bare {[ "status" := VStr "invalid_state" ]}))
          | _ => None
          end)
    (λ greeter_public_key,
       key ← returned_or_raised (PublicKey_of_raw greeter_public_key);
       mret (rep_dump invite_1_claimer_wait_peer_serializer
               {[ "status" := VStr "ok";
                 "greeter_public_key" := VKey key ]})).

Definition api_invite_1_greeter_wait_peer (client_ctx : Authenticated.t) (msg : Msg.t)
    : M S Reply :=
  try_except
    (conduit_exchange (Authenticated.organization_id client_ctx) (Some (Authenticated.user_id client_ctx))
       (Msg.token msg)
       STATE_1_WAIT_PEERS (encode (Msg.greeter_public_key msg)))
    (λ e, match e with
          | InvitationNotFoundError =>
              Some (mret (bare {[ "status" := VStr "not_found" ]}))
          | InvitationAlreadyDeletedError =>
              Some (mret (bare {[ "status" := VStr "already_deleted" ]}))
          | InvitationInvalidStateError =>
              Some (mret (bare {[ "status" := VStr "invalid_state" ]}))
          | _ => None
          end)
    (λ claimer_public_key_raw,
       key ← returned_or_raised (PublicKey_of_raw claimer_public_key_raw);
       mret (rep_dump invite_1_greeter_wait_peer_serializer
               {[ "status" := VStr "ok";
                 "claimer_public_key" := VKey key ]})).

Definition api_invite_2a_claimer_send_hashed_nonce (client_ctx : Invited.t) (msg : Msg.t)
    : M S Reply :=
  try_except
    (_ ← conduit_exchange (Invited.organization_id client_ctx) None
           (Invitation_token (Invited.invitation client_ctx))
           STATE_2_1_CLAIMER_HASHED_NONCE (Msg.claimer_hashed_nonce msg);
     conduit_exchange (Invited.organization_id client_ctx) None
       (Invitation_token (Invited.invitation client_ctx))
       STATE_2_2_GREETER_NONCE [])
    (λ e, match e with
          | InvitationNotFoundError =>
              Some (mret (bare {[ "status" := VStr "not_found" ]}))
          | InvitationAlreadyDeletedError =>
              Some (mret (bare {[ "status" := VStr "already_deleted" ]}))
          | InvitationInvalidStateError =>
              Some (mret (bare {[ "status" := VStr "invalid_state" ]}))
          | _ => None
          end)
    (λ greeter_nonce,
       mret (rep_dump invite_2a_claimer_send_hashed_nonce_serializer
               {[ "status" := VStr "ok";
                 "greeter_nonce" := VBytes greeter_nonce ]})).

Definition api_invite_2a_greeter_get_hashed_nonce (client_ctx : Authenticated.t) (msg : Msg.t)
    : M S Reply :=
  try_except
    (conduit_exchange (Authenticated.organization_id client_ctx) (Some (Authenticated.user_id client_ctx))
       (Msg.token msg)
       STATE_2_1_CLAIMER_HASHED_NONCE [])
    (λ e, match e with
          | InvitationNotFoundError =>
              Some (mret (bare {[ "status" := VStr "not_found" ]}))
          | InvitationAlreadyDeletedError =>
              Some (mret (bare {[ "status" := VStr "already_deleted" ]}))
          | InvitationInvalidStateError =>
              Some (mret (bare {[ "status" := VStr "invalid_state" ]}))
          | _ => None
          end)
    (λ claimer_hashed_nonce,
       mret (rep_dump invite_2a_greeter_get_hashed_nonce_serializer
               {[ "status" := VStr "ok";
                 "claimer_hashed_nonce" := VBytes claimer_hashed_nonce ]})).

Definition api_invite_2b_greeter_send_nonce (client_ctx : Authenticated.t) (msg : Msg.t)
    : M S Reply :=
  try_except
    (_ ← conduit_exchange (Authenticated.organization_id client_ctx) (Some (Authenticated.user_id client_ctx))
           (Msg.token msg)
           STATE_2_2_GREETER_NONCE (Msg.greeter_nonce msg);
     conduit_exchange (Authenticated.organization_id client_ctx) (Some (Authenticated.user_id client_ctx))
       (Msg.token msg)
       STATE_2_3_CLAIMER_NONCE [])
    (λ e, match e with
          | InvitationNotFoundError =>
              Some (mret (bare {[ "status" := VStr "not_found" ]}))
          | InvitationAlreadyDeletedError =>
              Some (mret (bare {[ "status" := VStr "already_deleted" ]}))
          | InvitationInvalidStateError =>
              Some (mret (bare {[ "status" := VStr "invalid_state" ]}))
          | _ => None
          end)
    (λ claimer_nonce,
       mret (rep_dump invite_2b_greeter_send_nonce_serializer
               {[ "status" := VStr "ok";
                 "claimer_nonce" := VBytes claimer_nonce ]})).

Definition api_invite_2b_claimer_send_nonce (client_ctx : Invited.t) (msg : Msg.t)
    : M S Reply :=
  try_except
    (conduit_exchange (Invited.organization_id client_ctx) None
       (Invitation_token (Invited.invitation client_ctx))
       STATE_2_3_CLAIMER_NONCE (Msg.claimer_nonce msg))
    (λ e, match e with
          | InvitationNotFoundError =>
              Some (mret (bare {[ "status" := VStr "not_found" ]}))
          | InvitationAlreadyDeletedError =>
              Some (mret (bare {[ "status" := VStr "already_deleted" ]}))
          | InvitationInvalidStateError =>
              Some (mret (bare {[ "status" := VStr "invalid_state" ]}))
          | _ => None
          end)
    (λ _,
       mret (rep_dump invite_2b_claimer_send_nonce_serializer
               {[ "status" := VStr "ok" ]})).

Definition api_invite_3a_greeter_wait_peer_trust (client_ctx : Authenticated.t) (msg : Msg.t)
    : M S Reply :=
  try_except
    (conduit_exchange (Authenticated.organization_id client_ctx) (Some (Authenticated.user_id client_ctx))
       (Msg.token msg)
       STATE_3_1_CLAIMER_TRUST [])
    (λ e, match e with
          | InvitationNotFoundError =>
              Some (mret (bare {[ "status" := VStr "not_found" ]}))
          | InvitationAlreadyDeletedError =>
              Some (mret (bare {[ "status" := VStr "already_deleted" ]}))
          | InvitationInvalidStateError =>
              Some (mret (bare {[ "status" := VStr "invalid_state" ]}))
          | _ => None
          end)
    (λ _,
       mret (rep_dump invite_3a_greeter_wait_peer_trust_serializer
               {[ "status" := VStr "ok" ]})).

Definition api_invite_3b_claimer_wait_peer_trust (client_ctx : Invited.t) (msg : Msg.t)
    : M S Reply :=
  try_except
    (conduit_exchange (Invited.organization_id client_ctx) None
       (Invitation_token (Invited.invitation client_ctx))
       STATE_3_2_GREETER_TRUST [])
    (λ e, match e with
          | InvitationNotFoundError =>
              Some (mret (bare {[ "status" := VStr "not_found" ]}))
          | InvitationAlreadyDeletedError =>
              Some (mret (bare {[ "status" := VStr "already_deleted" ]}))
          | InvitationInvalidStateError =>
              Some (mret (bare {[ "status" := VStr "invalid_state" ]}))
          | _ => None
          end)
    (λ _,
       mret (rep_dump invite_3b_claimer_wait_peer_trust_serializer
               {[ "status" := VStr "ok" ]})).

Definition api_invite_3b_greeter_signify_trust (client_ctx : Authenticated.t) (msg : Msg.t)
    : M S Reply :=
  try_except
    (conduit_exchange (Authenticated.organization_id client_ctx) (Some (Authenticated.user_id client_ctx))
       (Msg.token msg)
       STATE_3_2_GREETER_TRUST [])
    (λ e, match e with
          | InvitationNotFoundError =>
              Some (mret (bare {[ "status" := VStr "not_found" ]}))
          | InvitationAlreadyDeletedError =>
              Some (mret (bare {[ "status" := VStr "already_deleted" ]}))
          | InvitationInvalidStateError =>
              Some (mret (bare {[ "status" := VStr "invalid_state" ]}))
          | _ => None
          end)
    (λ _,
       mret (rep_dump invite_3b_greeter_signify_trust_serializer
               {[ "status" := VStr "ok" ]})).

Definition api_invite_3a_claimer_signify_trust (client_ctx : Invited.t) (msg : Msg.t)
    : M S Reply :=
  try_except
    (conduit_exchange (Invited.organization_id client_ctx) None
       (Invitation_token (Invited.invitation client_ctx))
       STATE_3_1_CLAIMER_TRUST [])
    (λ e, match e with
          | InvitationNotFoundError =>
              Some (mret (bare {[ "status" := VStr "not_found" ]}))
          | InvitationAlreadyDeletedError =>
              Some (mret (bare {[ "status" := VStr "already_deleted" ]}))
          | InvitationInvalidStateError =>
              Some (mret (bare {[ "status" := VStr "invalid_state" ]}))
          | _ => None
          end)
    (λ _,
       mret (rep_dump invite_3a_claimer_signify_trust_serializer
               {[ "status" := VStr "ok" ]})).

Definition api_invite_4_greeter_communicate (client_ctx : Authenticated.t) (msg : Msg.t)
    : M S Reply :=
  try_except
    (conduit_exchange (Authenticated.organization_id client_ctx) (Some (Authenticated.user_id client_ctx))
       (Msg.token msg)
       STATE_4_COMMUNICATE (Msg.payload msg))
    (λ e, match e with
          | InvitationNotFoundError =>
              Some (mret (bare {[ "status" := VStr "not_found" ]}))
          | InvitationAlreadyDeletedError =>
              Some (mret (bare {[ "status" := VStr "already_deleted" ]}))
          | InvitationInvalidStateError =>
              Some (mret (bare {[ "status" := VStr "invalid_state" ]}))
          | _ => None
          end)
    (λ answer_payload,
       mret (rep_dump invite_4_greeter_communicate_serializer
               {[ "status" := VStr "ok";
                 "payload" := VBytes answer_payload ]})).

Definition api_invite_4_claimer_communicate (client_ctx : Invited.t) (msg : Msg.t)
    : M S Reply :=
  try_except
    (conduit_exchange (Invited.organization_id client_ctx) None
       (Invitation_token (Invited.invitation client_ctx))
       STATE_4_COMMUNICATE (Msg.payload msg))
    (λ e, match e with
          | InvitationNotFoundError =>
              Some (mret (bare {[ "status" := VStr "not_found" ]}))
          | InvitationAlreadyDeletedError =>
              Some (mret (bare {[ "status" := VStr "already_deleted" ]}))
          | InvitationInvalidStateError =>
              Some (mret (bare {[ "status" := VStr "invalid_state" ]}))
          | _ => None
          end)
    (λ answer_payload,
       mret (rep_dump invite_4_claimer_communicate_serializer
               {[ "status" := VStr "ok";
                 "payload" := VBytes answer_payload ]})).

End Component.

(** *** Command dispatch

    The [@api("invite_...")] decorators register each conduit-step handler
    under its command name; a [ConduitCmd] is one such command with the
    client context of its handshake type and the loaded request. *)
Inductive ConduitCmd :=
| invite_1_claimer_wait_peer (client_ctx : Invited.t) (msg : Msg.t)
| invite_1_greeter_wait_peer (client_ctx : Authenticated.t) (msg : Msg.t)
| invite_2a_claimer_send_hashed_nonce (client_ctx : Invited.t) (msg : Msg.t)
| invite_2a_greeter_get_hashed_nonce (client_ctx : Authenticated.t) (msg : Msg.t)
| invite_2b_greeter_send_nonce (client_ctx : Authenticated.t) (msg : Msg.t)
| invite_2b_claimer_send_nonce (client_ctx : Invited.t) (msg : Msg.t)
| invite_3a_greeter_wait_peer_trust (client_ctx : Authenticated.t) (msg : Msg.t)
| invite_3b_claimer_wait_peer_trust (client_ctx : Invited.t) (msg : Msg.t)
| invite_3b_greeter_signify_trust (client_ctx : Authenticated.t) (msg : Msg.t)
| invite_3a_claimer_signify_trust (client_ctx : Invited.t) (msg : Msg.t)
| invite_4_greeter_communicate (client_ctx : Authenticated.t) (msg : Msg.t)
| invite_4_claimer_communicate (client_ctx : Invited.t) (msg : Msg.t).

Section Dispatch.
Context {S : Type} `{!InviteBackend S}.

Definition api_conduit_cmd (cmd : ConduitCmd) : M S Reply :=
  match cmd with
  | invite_1_claimer_wait_peer c m => api_invite_1_claimer_wait_peer c m
  | invite_1_greeter_wait_peer c m => api_invite_1_greeter_wait_peer c m
  | invite_2a_claimer_send_hashed_nonce c m => api_invite_2a_claimer_send_hashed_nonce c m
  | invite_2a_greeter_get_hashed_nonce c m => api_invite_2a_greeter_get_hashed_nonce c m
  | invite_2b_greeter_send_nonce c m => api_invite_2b_greeter_send_nonce c m
  | invite_2b_claimer_send_nonce c m => api_invite_2b_claimer_send_nonce c m
  | invite_3a_greeter_wait_peer_trust c m => api_invite_3a_greeter_wait_peer_trust c m
  | invite_3b_claimer_wait_peer_trust c m => api_invite_3b_claimer_wait_peer_trust c m
  | invite_3b_greeter_signify_trust c m => api_invite_3b_greeter_signify_trust c m
  | invite_3a_claimer_signify_trust c m => api_invite_3a_claimer_signify_trust c m
  | invite_4_greeter_communicate c m => api_invite_4_greeter_communicate c m
  | invite_4_claimer_communicate c m => api_invite_4_claimer_communicate c m
  end.

(** *** The conduit-step table as the specification words it

    The definitions below follow the table of the conduit RPCs (side,
    expected state, payload sent, payload returned) and the status mapping
    stated with it; the handlers above are compared with them. *)

(** Who a side is for the engine: the claimer is identified by the token of
    its invitation, the greeter by its user and the token of the request. *)
Definition as_claimer (client_ctx : Invited.t) (state : ConduitState)
    (payload : bytes) : M S bytes :=
  conduit_exchange (Invited.organization_id client_ctx) None
    (Invitation_token (Invited.invitation client_ctx)) state payload.

Definition as_greeter (client_ctx : Authenticated.t) (msg : Msg.t)
    (state : ConduitState) (payload : bytes) : M S bytes :=
  conduit_exchange (Authenticated.organization_id client_ctx)
    (Some (Authenticated.user_id client_ctx)) (Msg.token msg) state payload.

(** Columns "side", "expected state" and "payload sent". *)
Definition table_exchanges (cmd : ConduitCmd) : M S bytes :=
  match cmd with
  | invite_1_claimer_wait_peer c m =>
      as_claimer c STATE_1_WAIT_PEERS (encode (Msg.claimer_public_key m))
  | invite_1_greeter_wait_peer c m =>
      as_greeter c m STATE_1_WAIT_PEERS (encode (Msg.greeter_public_key m))
  | invite_2a_claimer_send_hashed_nonce c m =>
      _ ← as_claimer c STATE_2_1_CLAIMER_HASHED_NONCE (Msg.claimer_hashed_nonce m);
      as_claimer c STATE_2_2_GREETER_NONCE []
  | invite_2a_greeter_get_hashed_nonce c m =>
      as_greeter c m STATE_2_1_CLAIMER_HASHED_NONCE []
  | invite_2b_greeter_send_nonce c m =>
      _ ← as_greeter c m STATE_2_2_GREETER_NONCE (Msg.greeter_nonce m);
      as_greeter c m STATE_2_3_CLAIMER_NONCE []
  | invite_2b_claimer_send_nonce c m =>
      as_claimer c STATE_2_3_CLAIMER_NONCE (Msg.claimer_nonce m)
  | invite_3a_claimer_signify_trust c m => as_claimer c STATE_3_1_CLAIMER_TRUST []
  | invite_3a_greeter_wait_peer_trust c m => as_greeter c m STATE_3_1_CLAIMER_TRUST []
  | invite_3b_greeter_signify_trust c m => as_greeter c m STATE_3_2_GREETER_TRUST []
  | invite_3b_claimer_wait_peer_trust c m => as_claimer c STATE_3_2_GREETER_TRUST []
  | invite_4_greeter_communicate c m => as_greeter c m STATE_4_COMMUNICATE (Msg.payload m)
  | invite_4_claimer_communicate c m => as_claimer c STATE_4_COMMUNICATE (Msg.payload m)
  end.

End Dispatch.

(** Column "payload returned": the field of the successful reply that
    carries the peer payload, if the command has one. The field of a state-1
    command is a public key: it is built from the payload, which raises when
    the payload is not one. *)
Definition table_payload_field (cmd : ConduitCmd) (peer_payload : bytes)
    : Exn + option (string * Value) :=
  match cmd with
  | invite_1_claimer_wait_peer _ _ =>
      match PublicKey_of_raw peer_payload with
      | inl e => inl e
      | inr key => inr (Some ("greeter_public_key", VKey key))
      end
  | invite_1_greeter_wait_peer _ _ =>
      match PublicKey_of_raw peer_payload with
      | inl e => inl e
      | inr key => inr (Some ("claimer_public_key", VKey key))
      end
  | invite_2a_claimer_send_hashed_nonce _ _ =>
      inr (Some ("greeter_nonce", VBytes peer_payload))
  | invite_2a_greeter_get_hashed_nonce _ _ =>
      inr (Some ("claimer_hashed_nonce", VBytes peer_payload))
  | invite_2b_greeter_send_nonce _ _ => inr (Some ("claimer_nonce", VBytes peer_payload))
  | invite_2b_claimer_send_nonce _ _
  | invite_3a_claimer_signify_trust _ _
  | invite_3a_greeter_wait_peer_trust _ _
  | invite_3b_greeter_signify_trust _ _
  | invite_3b_claimer_wait_peer_trust _ _ => inr None
  | invite_4_greeter_communicate _ _
  | invite_4_claimer_communicate _ _ => inr (Some ("payload", VBytes peer_payload))
  end.


Definition table_serializer (cmd : ConduitCmd) : Serializer :=
  match cmd with
  | invite_1_claimer_wait_peer _ _ => invite_1_claimer_wait_peer_serializer
  | invite_1_greeter_wait_peer _ _ => invite_1_greeter_wait_peer_serializer
  | invite_2a_claimer_send_hashed_nonce _ _ => invite_2a_claimer_send_hashed_nonce_serializer
  | invite_2a_greeter_get_hashed_nonce _ _ => invite_2a_greeter_get_hashed_nonce_serializer
  | invite_2b_greeter_send_nonce _ _ => invite_2b_greeter_send_nonce_serializer
  | invite_2b_claimer_send_nonce _ _ => invite_2b_claimer_send_nonce_serializer
  | invite_3a_greeter_wait_peer_trust _ _ => invite_3a_greeter_wait_peer_trust_serializer
  | invite_3a_claimer_signify_trust _ _ => invite_3a_claimer_signify_trust_serializer
  | invite_3b_claimer_wait_peer_trust _ _ => invite_3b_claimer_wait_peer_trust_serializer
  | invite_3b_greeter_signify_trust _ _ => invite_3b_greeter_signify_trust_serializer
  | invite_4_greeter_communicate _ _ => invite_4_greeter_communicate_serializer
  | invite_4_claimer_communicate _ _ => invite_4_claimer_communicate_serializer
  end.

(** The wire status of an engine error, for the three errors that have one. *)
Definition wire_status (e : Exn) : option string :=
  match e with
  | InvitationNotFoundError => Some "not_found"
  | InvitationAlreadyDeletedError => Some "already_deleted"
  | InvitationInvalidStateError => Some "invalid_state"
  | _ => None
  end.

(** The reply the table prescribes for the outcome of the exchanges: the
    mapped status for an engine error, [status: ok] with the payload field on
    success. Any other exception is not a reply and keeps propagating, and so
    does the exception of a payload field that could not be built. *)
Definition table_reply (cmd : ConduitCmd) (exchanged : Outcome bytes) : Outcome Reply :=
  match exchanged with
  | Returned peer_payload =>
      match table_payload_field cmd peer_payload with
      | inr (Some (field, v)) =>
          Returned (rep_dump (table_serializer cmd)
                      (<[field := v]> {[ "status" := VStr "ok" ]}))
      | inr None => Returned (rep_dump (table_serializer cmd) {[ "status" := VStr "ok" ]})
      | inl e => Raised e
      end
  | Raised e =>
      match wire_status e with
      | Some status => Returned (bare {[ "status" := VStr status ]})
      | None => Raised e
      end
  | Blocked => Blocked
  end.

(** ** Reading a log of calls *)

(** The calls a run added to the log it started from. *)
Definition calls_since {S} (before after : World S) : list Call :=
  drop (length (calls before)) (calls after).

(** The arguments of the [_conduit_talk] calls of a log, in order. A
    [conduit_exchange] makes exactly one such call, with its own arguments,
    so these are the exchanges that were started. *)
Definition exchanges_of (log : list Call)
    : list (OrganizationID * option UserID * UUID * ConduitState * bytes) :=
  omap (λ c, match c with
             | ConduitTalk organization_id greeter token state payload _ =>
                 Some (organization_id, greeter, token, state, payload)
             | _ => None
             end) log.

(** The [_conduit_listen] calls of a log. *)
Definition listens_of (log : list Call) : list (ConduitListenCtx.t * (Exn + option bytes)) :=
  omap (λ c, match c with
             | ConduitListen ctx answer => Some (ctx, answer)
             | _ => None
             end) log.

(** The seconds spent suspended in the resumed waits of a log. *)
Definition seconds_waited (log : list Call) : nat :=
  sum_list (omap (λ c, match c with
                       | WaiterWait (Some seconds) => Some seconds
                       | _ => None
                       end) log).

(** What leaving the [with] block adds to the log: the release of the
    waiter, unless the coroutine is still suspended inside the block. *)
Definition on_leaving {A} (out : Outcome A) : list Call :=
  match out with
  | Blocked => []
  | _ => [WaiterExit]
  end.

(** The rounds of the waiting loop as the specification words them: wait
    for the event, clear it, listen; a listen answering [None] is followed by
    another round, the first payload is returned, an exception leaves the
    loop; the waiter is released on the way out. A wait that is never
    resumed ends the log. *)
Inductive loop_rounds (listen_ctx : ConduitListenCtx.t)
    : list Call → Outcome bytes → Prop :=
| rounds_suspended :
    loop_rounds listen_ctx [WaiterWait None] Blocked
| rounds_payload seconds peer_payload :
    loop_rounds listen_ctx
      [WaiterWait (Some seconds); WaiterClear;
       ConduitListen listen_ctx (inr (Some peer_payload)); WaiterExit]
      (Returned peer_payload)
| rounds_exception seconds e :
    loop_rounds listen_ctx
      [WaiterWait (Some seconds); WaiterClear;
       ConduitListen listen_ctx (inl e); WaiterExit]
      (Raised e)
| rounds_again seconds log out :
    loop_rounds listen_ctx log out →
    loop_rounds listen_ctx
      (WaiterWait (Some seconds) :: WaiterClear
       :: ConduitListen listen_ctx (inr None) :: log)
      out.

(** *** The loop seen from its listens

    A second reading of the same sentence, on what the listens answer rather
    than on the shape of the log: the loop makes one round per resumption of
    its wait, in order, up to and including the first round whose listen
    produces something, and that is how it ends; when no listen produces
    anything it has made a round for every resumption and waits again. *)

Section Listens.
Context {S : Type} `{!InviteBackend S}.

(** What [_conduit_listen] does to the state of the implementation when it
    is called after a resumption: the other requests have acted in the
    meantime. *)
Definition listen_after (listen_ctx : ConduitListenCtx.t) (s : S) (wk : Wakeup S)
    : (Exn + option bytes) * S :=
  _conduit_listen listen_ctx (meanwhile wk s).

(** The answers of [_conduit_listen] called once after each of the given
    resumptions, from the state [s] on. *)
Fixpoint listen_answers (listen_ctx : ConduitListenCtx.t) (s : S)
    (pending : list (Wakeup S)) : list (Exn + option bytes) :=
  match pending with
  | [] => []
  | wk :: later =>
      (listen_after listen_ctx s wk).1
      :: listen_answers listen_ctx (listen_after listen_ctx s wk).2 later
  end.

(** The state of the implementation after these calls. *)
Definition listened (listen_ctx : ConduitListenCtx.t) (s : S)
    (taken : list (Wakeup S)) : S :=
  foldl (λ s wk, (listen_after listen_ctx s wk).2) s taken.

(** The rounds in the log: for each resumption taken, the wait, the clear
    and the listen with its answer. *)
Definition rounds_of (listen_ctx : ConduitListenCtx.t) (taken : list (Wakeup S))
    (answers : list (Exn + option bytes)) : list Call :=
  mjoin (zip_with (λ wk answer, [WaiterWait (Some (waited wk)); WaiterClear;
                                 ConduitListen listen_ctx answer])
           taken answers).

End Listens.

(** A listen produced something when it did not answer [None]. *)
Definition produced (answer : Exn + option bytes) : Prop := answer ≠ inr None.

#[global] Instance produced_dec answer : Decision (produced answer).
Proof.
  destruct answer as [e | [peer_payload |]].
  - left. discriminate.
  - left. discriminate.
  - right. intros Hproduced. by apply Hproduced.
Defined.

(** ** A scripted implementation

    An implementation of the abstract methods that follows a script, used to
    run the component on concrete inputs: [_conduit_talk] answers with
    [talk_script] (an exception, or the peer payload its listen-context
    holds), each [_conduit_listen] takes the next entry of [listen_script]
    (nothing from the peer once the script is exhausted), invitations get
    consecutive tokens, and [info] reports the tokens of [deleted] as
    deleted and knows no other. *)
Record Scripted := {
  talk_script : Exn + option bytes;
  listen_script : list (Exn + option bytes);
  next_token : UUID;
  deleted : gset UUID;
}.

#[global] Instance Scripted_backend : InviteBackend Scripted := {|
  _conduit_talk organization_id greeter token state payload s :=
    (match talk_script s with
     | inl e => inl e
     | inr peer_payload =>
         inr {| ConduitListenCtx.organization_id := organization_id;
                ConduitListenCtx.greeter := greeter;
                ConduitListenCtx.token := token;
                ConduitListenCtx.state := state;
                ConduitListenCtx.payload := payload;
                ConduitListenCtx.peer_payload := peer_payload |}
     end, s);
  _conduit_listen ctx s :=
    match listen_script s with
    | [] => (inr None, s)
    | answer :: later =>
        (answer, {| talk_script := talk_script s; listen_script := later;
                    next_token := next_token s; deleted := deleted s |})
    end;
  new_for_user organization_id greeter_user_id claimer_email s :=
    ({| UserInvitation.greeter_user_id := greeter_user_id;
        UserInvitation.greeter_human_handle := None;
        UserInvitation.claimer_email := claimer_email;
        UserInvitation.token := next_token s;
        UserInvitation.created_on := 0;
        UserInvitation.status := IDLE |},
     {| talk_script := talk_script s; listen_script := listen_script s;
        next_token := N.succ (next_token s); deleted := deleted s |});
  new_for_device organization_id greeter_user_id s :=
    ({| DeviceInvitation.greeter_user_id := greeter_user_id;
        DeviceInvitation.greeter_human_handle := None;
        DeviceInvitation.token := next_token s;
        DeviceInvitation.created_on := 0;
        DeviceInvitation.status := IDLE |},
     {| talk_script := talk_script s; listen_script := listen_script s;
        next_token := N.succ (next_token s); deleted := deleted s |});
  info organization_id token s :=
    (if decide (token ∈ deleted s) then inl InvitationAlreadyDeletedError
     else inl InvitationNotFoundError, s);
|}.

(** A world for the scripted implementation with an empty log. *)
Definition scripted_world (s : Scripted) (waits : list nat) : World Scripted :=
  {| backend := s;
     wakeups := (λ seconds, {| waited := seconds; meanwhile := id |}) <$> waits;
     calls := [] |}.

(** The public key of 32 zero bytes. *)
Definition zero_key : PublicKey :=
  {| encode := replicate 32 Byte.x00; encode_size := I |}.

(** The request of a command that reads nothing but the listed fields. *)
Definition blank_msg : Msg.t :=
  {| Msg.type := DEVICE; Msg.send_email := false; Msg.claimer_email := "";
     Msg.token := 0%N;
     Msg.claimer_public_key := zero_key;
     Msg.greeter_public_key := zero_key;
     Msg.claimer_hashed_nonce := []; Msg.greeter_nonce := [];
     Msg.claimer_nonce := []; Msg.payload := [] |}.

(** ** Concrete requests

    Alice greets, with one profile or another; the claimer holds the
    device invitation of token 5, as the handshake fetched it. *)
Definition alice (profile : UserProfile) : Authenticated.t :=
  {| Authenticated.organization_id := "Org"; Authenticated.user_id := "alice";
     Authenticated.profile := profile |}.

Definition invitation_5 (status : InvitationStatus) : Invitation :=
  ADeviceInvitation
    {| DeviceInvitation.greeter_user_id := "alice";
       DeviceInvitation.greeter_human_handle := None;
       DeviceInvitation.token := 5%N;
       DeviceInvitation.created_on := 0;
       DeviceInvitation.status := status |}.

Definition claimer_5 (status : InvitationStatus) : Invited.t :=
  {| Invited.organization_id := "Org"; Invited.invitation := invitation_5 status |}.

(** A peer that never contributes: the talk finds no peer payload and no
    listen ever gets one. *)
Definition absent_peer : Scripted :=
  {| talk_script := inr None; listen_script := []; next_token := 6%N; deleted := ∅ |}.

(** A peer that had talked first (the listen-context already holds its
    payload [01]) and whose payload the second listen delivers as [02]. *)
Definition early_peer : Scripted :=
  {| talk_script := inr (Some [Byte.x01]);
     listen_script := [inr None; inr (Some [Byte.x02])];
     next_token := 6%N; deleted := ∅ |}.

(** A peer that answers two exchanges in a row, with [0a] then [0b]. *)
Definition prompt_peer : Scripted :=
  {| talk_script := inr None;
     listen_script := [inr (Some [Byte.x0a]); inr (Some [Byte.x0b])];
     next_token := 6%N; deleted := ∅ |}.




(** The invitation of token 5 has been deleted. *)
Definition after_delete : Scripted :=
  {| talk_script := inl InvitationAlreadyDeletedError; listen_script := [];
     next_token := 6%N; deleted := {[ 5%N ]} |}.

(** A request for a user invitation, and one for a device invitation that
    has [send_email] set. *)
Definition user_request : Msg.t :=
  {| Msg.type := USER; Msg.send_email := false;
     Msg.claimer_email := "zack@example.com"; Msg.token := 0%N;
     Msg.claimer_public_key := zero_key;
     Msg.greeter_public_key := zero_key;
     Msg.claimer_hashed_nonce := []; Msg.greeter_nonce := [];
     Msg.claimer_nonce := []; Msg.payload := [] |}.

Definition device_request : Msg.t :=
  {| Msg.type := DEVICE; Msg.send_email := true;
     Msg.claimer_email := ""; Msg.token := 0%N;
     Msg.claimer_public_key := zero_key;
     Msg.greeter_public_key := zero_key;
     Msg.claimer_hashed_nonce := []; Msg.greeter_nonce := [];
     Msg.claimer_nonce := []; Msg.payload := [] |}.

(** ** Deleting and listing invitations *)

(** Modelled from the spec: [InvitationDeletedReason] is imported from
    [parsec.api.protocol]; its members are the reasons the data model
    lists. *)
Inductive InvitationDeletedReason := FINISHED | CANCELLED | ROTTEN.

(** The abstract methods [delete] and [list] of [BaseInviteComponent], on the
    state of their implementation. [delete] returns nothing or raises,
    [list] raises nothing. The log of calls keeps the calls of the conduit
    and of the creation of invitations; these two are not recorded in it. *)
Module Store.
Class t (S : Type) := {
  delete :
    OrganizationID → UserID → UUID → Z → InvitationDeletedReason →
    S → (Exn + unit) * S;
  list : OrganizationID → UserID → S → list Invitation * S;
}.
End Store.

(** The request of [invite_delete] as returned by [req_load]. *)
Module DeleteMsg.
Record t := {
  token : UUID;
  reason : InvitationDeletedReason;
}.
End DeleteMsg.

(** What [api_invite_delete] returns: [invite_delete_serializer.rep_dump] of
    a dictionary, kept as the dictionary, or a bare dictionary. *)
Inductive DeleteReply :=
| invite_delete_rep_dump (data : gmap string Value)
| invite_delete_bare (data : gmap string Value).

Definition DeleteReply_data (rep : DeleteReply) : gmap string Value :=
  match rep with invite_delete_rep_dump data | invite_delete_bare data => data end.

(** One entry of the ["invitations"] list built by [api_invite_list]: a
    dictionary with these five keys; [claimer_email] is [None] when the
    invitation has no such attribute. *)
Module InvitationItem.
Record t := {
  type : InvitationType;
  token : UUID;
  created_on : Z;
  claimer_email : option string;
  status : InvitationStatus;
}.
End InvitationItem.

(** What [api_invite_list] returns: [invite_list_serializer.rep_dump] of
    [{"invitations": [...]}], kept as the list. *)
Inductive ListReply :=
| invite_list_rep_dump (invitations : list InvitationItem.t).

Definition ListReply_invitations (rep : ListReply) : list InvitationItem.t :=
  match rep with invite_list_rep_dump invitations => invitations end.

Definition Invitation_created_on (invitation : Invitation) : Z :=
  match invitation with
  | AUserInvitation i => UserInvitation.created_on i
  | ADeviceInvitation i => DeviceInvitation.created_on i
  end.

(** The dictionary [api_invite_list] builds for one invitation. *)
Definition invitation_item (item : Invitation) : InvitationItem.t :=
  {| InvitationItem.type :=
       match item with AUserInvitation _ => USER | ADeviceInvitation _ => DEVICE end;
     InvitationItem.token := Invitation_token item;
     InvitationItem.created_on := Invitation_created_on item;
     InvitationItem.claimer_email :=
       match item with
       | AUserInvitation i => Some (UserInvitation.claimer_email i)
       | ADeviceInvitation _ => None
       end;
     InvitationItem.status := Invitation_status item |}.

Section StoreHandlers.
Context {S : Type} `{!Store.t S}.

(** [await self.delete(...)] and [await self.list(...)]. *)
Definition call_delete (organization_id : OrganizationID) (greeter : UserID)
    (token : UUID) (on : Z) (reason : InvitationDeletedReason) : M S unit := λ w,
  let '(answer, s) := Store.delete organization_id greeter token on reason (backend w) in
  let w' := {| backend := s; wakeups := wakeups w; calls := calls w |} in
  match answer with
  | inl e => (Raised e, w')
  | inr _ => (Returned (), w')
  end.

Definition call_list (organization_id : OrganizationID) (greeter : UserID)
    : M S (list Invitation) := λ w,
  let '(invitations, s) := Store.list organization_id greeter (backend w) in
  (Returned invitations, {| backend := s; wakeups := wakeups w; calls := calls w |}).

(** [now] is what [pendulum_now()] reads when the handler calls it. *)
Definition api_invite_delete (client_ctx : Authenticated.t) (msg : DeleteMsg.t)
    (now : Z) : M S DeleteReply :=
  try_except
    (call_delete (Authenticated.organization_id client_ctx)
       (Authenticated.user_id client_ctx)
       (DeleteMsg.token msg) now (DeleteMsg.reason msg))
    (λ e, match e with
          | InvitationNotFoundError =>
              Some (mret (invite_delete_bare {[ "status" := VStr "not_found" ]}))
          | InvitationAlreadyDeletedError =>
              Some (mret (invite_delete_bare {[ "status" := VStr "already_deleted" ]}))
          | _ => None
          end)
    (λ _, mret (invite_delete_rep_dump {[ "status" := VStr "ok" ]})).

Definition api_invite_list (client_ctx : Authenticated.t) (msg : Msg.t)
    : M S ListReply :=
  invitations ← call_list (Authenticated.organization_id client_ctx)
                  (Authenticated.user_id client_ctx);
  mret (invite_list_rep_dump (invitation_item <$> invitations)).

End StoreHandlers.

(** ** The jobs of the invitation widgets

    [parsec/core/gui/invite_user_widget.py] and
    [parsec/core/gui/invite_device_widget.py] call the commands above through
    a connection [cmds]. *)

#[global] Instance byte_eq_dec : EqDecision Byte.byte := Byte.byte_eq_dec.
#[global] Instance PublicKey_eq_dec : EqDecision PublicKey.
Proof.
  intros [raw1 size1] [raw2 size2].
  destruct (decide (raw1 = raw2)) as [-> | Hne].
  - left. f_equal. apply proof_irrel.
  - right. intros Heq. apply Hne. by injection Heq.
Defined.
#[global] Instance HumanHandle_eq_dec : EqDecision HumanHandle.
Proof. solve_decision. Defined.
#[global] Instance Value_eq_dec : EqDecision Value.
Proof. solve_decision. Defined.

(** The reply of [cmds.invite_list()] as the widgets read it:
    [rep["status"]] and [rep["invitations"]]. *)
Module InviteListRep.
Record t := {
  status : Value;
  invitations : list InvitationItem.t;
}.
End InviteListRep.

(** The commands of a connection the widgets use, with the keyword arguments
    they are given ([None] for an argument that is not given); each answers
    with the reply dictionary. *)
Module Cmds.
Class t (S : Type) := {
  invite_new :
    InvitationType → option string → option bool → M S (gmap string Value);
  invite_delete : UUID → InvitationDeletedReason → M S (gmap string Value);
  invite_list : M S InviteListRep.t;
}.
End Cmds.

(** The attributes of the local device the jobs read. *)
Module LocalDevice.
Record t := {
  organization_addr : string;
  organization_id : OrganizationID;
}.
End LocalDevice.

(** Modelled from the spec: [BackendInvitationAddr.build] is declared in
    [parsec.core.types]; an address is kept as the arguments it is built
    from. *)
Module BackendInvitationAddr.
Record t := {
  backend_addr : string;
  organization_id : OrganizationID;
  invitation_type : InvitationType;
  token : Value;
}.
End BackendInvitationAddr.

(** What a job raises by itself: [JobResultError(status)], or the [KeyError]
    of a subscript on a missing key. A job's result is the left injection of
    what it raises or the right injection of what it returns. *)
Inductive JobExn :=
| JobResultError (status : Value)
| KeyError (key : string).

Module InviteUserWidget.
Section Jobs.
Context {S : Type} `{!Cmds.t S}.

Definition _do_invite_user (device : LocalDevice.t) (email : string)
    : M S (JobExn + BackendInvitationAddr.t) :=
  rep ← Cmds.invite_new USER (Some email) (Some false);
  match rep !! "status" with
  | None => mret (inl (KeyError "status"))
  | Some status =>
      if decide (status ≠ VStr "ok") then mret (inl (JobResultError status))
      else
        match rep !! "token" with
        | None => mret (inl (KeyError "token"))
        | Some token =>
            mret (inr {| BackendInvitationAddr.backend_addr :=
                           LocalDevice.organization_addr device;
                         BackendInvitationAddr.organization_id :=
                           LocalDevice.organization_id device;
                         BackendInvitationAddr.invitation_type := USER;
                         BackendInvitationAddr.token := token |})
        end
  end.

Definition _do_list_invitations (device : LocalDevice.t)
    : M S (JobExn + list InvitationItem.t) :=
  rep ← Cmds.invite_list;
  if decide (InviteListRep.status rep ≠ VStr "ok")
  then mret (inl (JobResultError (InviteListRep.status rep)))
  else mret (inr (filter (λ inv, InvitationItem.type inv = USER)
                    (InviteListRep.invitations rep))).

Definition _do_cancel_invitation (device : LocalDevice.t) (token : UUID)
    : M S (JobExn + unit) :=
  rep ← Cmds.invite_delete token CANCELLED;
  match rep !! "status" with
  | None => mret (inl (KeyError "status"))
  | Some status =>
      if decide (status ≠ VStr "ok") then mret (inl (JobResultError status))
      else mret (inr ())
  end.

End Jobs.
End InviteUserWidget.

Module InviteDeviceWidget.
Section Jobs.
Context {S : Type} `{!Cmds.t S}.

Definition _do_invite_device (device : LocalDevice.t)
    : M S (JobExn + BackendInvitationAddr.t) :=
  rep ← Cmds.invite_new DEVICE None None;
  match rep !! "status" with
  | None => mret (inl (KeyError "status"))
  | Some status =>
      if decide (status ≠ VStr "ok") then mret (inl (JobResultError status))
      else
        match rep !! "token" with
        | None => mret (inl (KeyError "token"))
        | Some token =>
            mret (inr {| BackendInvitationAddr.backend_addr :=
                           LocalDevice.organization_addr device;
                         BackendInvitationAddr.organization_id :=
                           LocalDevice.organization_id device;
                         BackendInvitationAddr.invitation_type := DEVICE;
                         BackendInvitationAddr.token := token |})
        end
  end.

(** The job returns the first device invitation of the reply, or [None]. *)
Definition _do_list_invitations (device : LocalDevice.t)
    : M S (JobExn + option InvitationItem.t) :=
  rep ← Cmds.invite_list;
  if decide (InviteListRep.status rep ≠ VStr "ok")
  then mret (inl (JobResultError (InviteListRep.status rep)))
  else
    let invs := filter (λ inv, InvitationItem.type inv = DEVICE)
                  (InviteListRep.invitations rep) in
    match invs with
    | inv :: _ => mret (inr (Some inv))
    | [] => mret (inr None)
    end.

Definition _do_cancel_invitation (device : LocalDevice.t) (token : UUID)
    : M S (JobExn + unit) :=
  rep ← Cmds.invite_delete token CANCELLED;
  match rep !! "status" with
  | None => mret (inl (KeyError "status"))
  | Some status =>
      if decide (status ≠ VStr "ok") then mret (inl (JobResultError status))
      else mret (inr ())
  end.

End Jobs.
End InviteDeviceWidget.

(** Modelled from the spec: the connection between a widget and the
    component ([parsec.core.backend_connection] and the transport) is not in
    these files. This one hands the request of the widget to the handler, for
    the client context of the connection, and hands back the reply dictionary
    of the handler as it is; a reply dumped with no status comes back with
    status ["ok"], every response carrying one. A keyword argument that is not
    given leaves its field of the request blank. *)
Definition loopback {S : Type} `{!InviteBackend S} `{!Store.t S}
    (client_ctx : Authenticated.t) (now : Z) : Cmds.t S :=
  {| Cmds.invite_new type claimer_email send_email :=
       rep ← api_invite_new client_ctx
                {| Msg.type := type;
                   Msg.send_email := default false send_email;
                   Msg.claimer_email := default "" claimer_email;
                   Msg.token := 0%N;
                   Msg.claimer_public_key := zero_key;
                   Msg.greeter_public_key := zero_key;
                   Msg.claimer_hashed_nonce := []; Msg.greeter_nonce := [];
                   Msg.claimer_nonce := []; Msg.payload := [] |};
       mret (Reply_data rep);
     Cmds.invite_delete token reason :=
       rep ← api_invite_delete client_ctx
                {| DeleteMsg.token := token; DeleteMsg.reason := reason |} now;
       mret (DeleteReply_data rep);
     Cmds.invite_list :=
       rep ← api_invite_list client_ctx blank_msg;
       mret {| InviteListRep.status := VStr "ok";
               InviteListRep.invitations := ListReply_invitations rep |} |}.

(** ** Fitting a text in a label

    The loop of [InviteDeviceWidget._on_list_invitations_success] and of
    [UserInvitationWidget.resizeEvent] that shortens a text until it fits the
    width of its label with ["..."] after it. A text is the list of its
    characters; [horizontalAdvance] is the one of the font metrics. The loop
    runs for at most [fuel] turns. *)
Section Elide.
Variable horizontalAdvance : list Ascii.ascii → Z.

Definition dots : list Ascii.ascii := String.list_ascii_of_string "...".

(** A text fits a width when, with the dots after it, it is not wider. *)
Definition fits (width : Z) (text : list Ascii.ascii) : Prop :=
  (horizontalAdvance (text ++ dots) ≤ width)%Z.

(** [while metrics.horizontalAdvance(text + "...") > width:
       text = text[: len(text) - 1]]; [None] when [fuel] turns were not
    enough. *)
Fixpoint shorten (fuel : nat) (width : Z) (text : list Ascii.ascii)
    : option (list Ascii.ascii) :=
  if decide (width < horizontalAdvance (text ++ dots))%Z then
    match fuel with
    | 0 => None
    | Datatypes.S fuel => shorten fuel width (take (length text - 1) text)
    end
  else Some text.

(** [if metrics.horizontalAdvance(text) > width: <the loop>; text += "..."]. *)
Definition elided (fuel : nat) (width : Z) (text : list Ascii.ascii)
    : option (list Ascii.ascii) :=
  if decide (width < horizontalAdvance text)%Z then
    shortened ← shorten fuel width text;
    Some (shortened ++ dots)
  else Some text.

End Elide.

(** [isinstance(item, UserInvitation)]. *)
Definition is_user_invitation (item : Invitation) : bool :=
  match item with AUserInvitation _ => true | ADeviceInvitation _ => false end.

(** ** A scripted implementation with a shelf of invitations

    The scripted implementation together with the invitations that exist:
    [list] returns those of the greeter, [delete] raises
    [InvitationNotFoundError] for a token that is not the greeter's,
    [InvitationAlreadyDeletedError] for one that is in [deleted], and puts
    the token in [deleted] otherwise. *)
Record Desk := {
  scripted : Scripted;
  shelf : list Invitation;
}.

Definition Invitation_greeter_user_id (invitation : Invitation) : UserID :=
  match invitation with
  | AUserInvitation i => UserInvitation.greeter_user_id i
  | ADeviceInvitation i => DeviceInvitation.greeter_user_id i
  end.

#[global] Instance Desk_backend : InviteBackend Desk := {|
  _conduit_talk organization_id greeter token state payload d :=
    let '(answer, s) :=
      _conduit_talk organization_id greeter token state payload (scripted d) in
    (answer, {| scripted := s; shelf := shelf d |});
  _conduit_listen ctx d :=
    let '(answer, s) := _conduit_listen ctx (scripted d) in
    (answer, {| scripted := s; shelf := shelf d |});
  new_for_user organization_id greeter_user_id claimer_email d :=
    let '(invitation, s) :=
      new_for_user organization_id greeter_user_id claimer_email (scripted d) in
    (invitation, {| scripted := s; shelf := shelf d ++ [AUserInvitation invitation] |});
  new_for_device organization_id greeter_user_id d :=
    let '(invitation, s) := new_for_device organization_id greeter_user_id (scripted d) in
    (invitation, {| scripted := s; shelf := shelf d ++ [ADeviceInvitation invitation] |});
  info organization_id token d :=
    let '(answer, s) := info organization_id token (scripted d) in
    (answer, {| scripted := s; shelf := shelf d |});
|}.

#[global] Instance Desk_store : Store.t Desk := {|
  Store.delete organization_id greeter token on reason d :=
    if decide (token ∈ Invitation_token
                       <$> filter (λ i, Invitation_greeter_user_id i = greeter) (shelf d))
    then
      if decide (token ∈ deleted (scripted d))
      then (inl InvitationAlreadyDeletedError, d)
      else (inr (),
            {| scripted :=
                 {| talk_script := talk_script (scripted d);
                    listen_script := listen_script (scripted d);
                    next_token := next_token (scripted d);
                    deleted := deleted (scripted d) ∪ {[token]} |};
               shelf := shelf d |})
    else (inl InvitationNotFoundError, d);
  Store.list organization_id greeter d :=
    (filter (λ i, Invitation_greeter_user_id i = greeter) (shelf d), d);
|}.

(** Alice has invited Zack as a user (token 4) and two devices (tokens 5
    and 6); the invitation of token 5 has been deleted. *)
Definition invitation_4 : Invitation :=
  AUserInvitation
    {| UserInvitation.greeter_user_id := "alice";
       UserInvitation.greeter_human_handle := None;
       UserInvitation.claimer_email := "zack@example.com";
       UserInvitation.token := 4%N;
       UserInvitation.created_on := 0;
       UserInvitation.status := IDLE |}.

Definition invitation_6 : Invitation :=
  ADeviceInvitation
    {| DeviceInvitation.greeter_user_id := "alice";
       DeviceInvitation.greeter_human_handle := None;
       DeviceInvitation.token := 6%N;
       DeviceInvitation.created_on := 0;
       DeviceInvitation.status := READY |}.

Definition alice_desk : World Desk :=
  {| backend := {| scripted := after_delete;
                   shelf := [invitation_4; invitation_5 DELETED; invitation_6] |};
     wakeups := [];
     calls := [] |}.

Definition alice_device : LocalDevice.t :=
  {| LocalDevice.organization_addr := "parsec://example.com/Org";
     LocalDevice.organization_id := "Org" |}.

(** A font in which every character is 10 wide. *)
Definition ten_per_character (text : list Ascii.ascii) : Z :=
  (10 * Z.of_nat (length text))%Z.

(** ** Further readings of a log and of a command *)

(** The registrations ([true]) and releases ([false]) of waiters in a log, in
    order. *)
Definition waiter_events (log : list Call) : list bool :=
  omap (λ c, match c with
             | WaiterOn _ _ => Some true
             | WaiterExit => Some false
             | _ => None
             end) log.

(** Who a handler says it is when it exchanges: the organization of its
    client context, then no greeter and the token of the invitation of the
    connection for a handler of an [INVITED] handshake, the user of the
    connection and the token of the request for one of an [AUTHENTICATED]
    handshake. *)
Definition invited_caller (client_ctx : Invited.t)
    : OrganizationID * option UserID * UUID :=
  (Invited.organization_id client_ctx, None,
   Invitation_token (Invited.invitation client_ctx)).

Definition authenticated_caller (client_ctx : Authenticated.t) (msg : Msg.t)
    : OrganizationID * option UserID * UUID :=
  (Authenticated.organization_id client_ctx,
   Some (Authenticated.user_id client_ctx), Msg.token msg).

Definition cmd_caller (cmd : ConduitCmd) : OrganizationID * option UserID * UUID :=
  match cmd with
  | invite_1_claimer_wait_peer c _
  | invite_2a_claimer_send_hashed_nonce c _
  | invite_2b_claimer_send_nonce c _
  | invite_3a_claimer_signify_trust c _
  | invite_3b_claimer_wait_peer_trust c _
  | invite_4_claimer_communicate c _ => invited_caller c
  | invite_1_greeter_wait_peer c m
  | invite_2a_greeter_get_hashed_nonce c m
  | invite_2b_greeter_send_nonce c m
  | invite_3a_greeter_wait_peer_trust c m
  | invite_3b_greeter_signify_trust c m
  | invite_4_greeter_communicate c m => authenticated_caller c m
  end.

(** The two commands whose handler chains two exchanges. *)
Definition chains (cmd : ConduitCmd) : Prop :=
  (∃ c m, cmd = invite_2a_claimer_send_hashed_nonce c m)
  ∨ (∃ c m, cmd = invite_2b_greeter_send_nonce c m).

(** The organizations a sequence of [invite.status_changed] events names. *)
Definition organizations_of (evs : list StatusChanged) : gset OrganizationID :=
  list_to_set (sc_organization_id <$> evs).

(** * Properties *)

(** ** The transition table *)

(** C2. [NEXT_CONDUIT_STATE] is defined on each of the seven conduit
    states and on nothing else, it sends every state to the one that follows
    it in the order 1_WAIT_PEERS, 2_1, 2_2, 2_3, 3_1, 3_2, 4_COMMUNICATE, it
    sends [STATE_4_COMMUNICATE] to itself, and no other state is sent to
    itself. *)
Theorem NEXT_CONDUIT_STATE_table :
  (∀ s, is_Some (NEXT_CONDUIT_STATE !! s)) ∧
  size NEXT_CONDUIT_STATE = 7 ∧
  NEXT_CONDUIT_STATE !! STATE_1_WAIT_PEERS = Some STATE_2_1_CLAIMER_HASHED_NONCE ∧
  NEXT_CONDUIT_STATE !! STATE_2_1_CLAIMER_HASHED_NONCE = Some STATE_2_2_GREETER_NONCE ∧
  NEXT_CONDUIT_STATE !! STATE_2_2_GREETER_NONCE = Some STATE_2_3_CLAIMER_NONCE ∧
  NEXT_CONDUIT_STATE !! STATE_2_3_CLAIMER_NONCE = Some STATE_3_1_CLAIMER_TRUST ∧
  NEXT_CONDUIT_STATE !! STATE_3_1_CLAIMER_TRUST = Some STATE_3_2_GREETER_TRUST ∧
  NEXT_CONDUIT_STATE !! STATE_3_2_GREETER_TRUST = Some STATE_4_COMMUNICATE ∧
  NEXT_CONDUIT_STATE !! STATE_4_COMMUNICATE = Some STATE_4_COMMUNICATE ∧
  (∀ s, NEXT_CONDUIT_STATE !! s = Some s ↔ s = STATE_4_COMMUNICATE) ∧
  (∀ i s, ConduitState_members !! i = Some s →
     NEXT_CONDUIT_STATE !! s
     = Some (default STATE_4_COMMUNICATE (ConduitState_members !! (i + 1)%nat))).
Proof.
  split_and!; try reflexivity.
  - intros []; eexists; reflexivity.
  - intros s; split.
    + destruct s; vm_compute; congruence.
    + intros ->. reflexivity.
  - intros i s Hi.
    do 7 (destruct i as [|i]; [injection Hi as <-; reflexivity|]).
    discriminate.
Qed.

(** ** The claimer presence tracker *)

Lemma claimers_of_insert (m : gmap OrganizationID (gset UUID)) o o' (X : gset UUID) :
  claimers_of (<[o := X]> m) o' = if decide (o = o') then X else claimers_of m o'.
Proof.
  unfold claimers_of. rewrite lookup_insert. by case_decide.
Qed.

(** One delivery: the token of the event is in its organization's set
    exactly when the status is [READY]; every other token, and every other
    organization, is left as it was. *)
Lemma elem_of_on_status_changed m event o g t st o' t' :
  t' ∈ claimers_of (_on_status_changed m event o g t st) o'
  ↔ if decide (o' = o ∧ t' = t) then st = READY else t' ∈ claimers_of m o'.
Proof.
  unfold _on_status_changed.
  destruct (decide (st = READY)) as [Hst | Hst];
    rewrite claimers_of_insert;
    destruct (decide (o = o')) as [Ho | Ho];
    destruct (decide (o' = o ∧ t' = t)) as [[Ho' Ht'] | Hne];
    subst;
    rewrite ?elem_of_union, ?elem_of_difference, ?elem_of_singleton;
    intuition congruence.
Qed.

Lemma claimers_ready_after_snoc evs ev :
  claimers_ready_after (evs ++ [ev])
  = deliver_status_changed (claimers_ready_after evs) ev.
Proof. unfold claimers_ready_after. by rewrite foldl_app. Qed.

Lemma latest_status_snoc o t evs ev :
  latest_status o t (evs ++ [ev])
  = if decide (concerns o t ev) then Some (sc_status ev) else latest_status o t evs.
Proof.
  unfold latest_status. rewrite filter_app.
  cbn [filter list_filter]. case_decide.
  - by rewrite last_snoc.
  - by rewrite app_nil_r.
Qed.

(** C8. Delivering an [invite.status_changed] event with status [READY]
    puts its token in the set of its organization, delivering one with any
    other status takes it out; and after any sequence of events, delivered
    to the tracker [__init__] creates, a token is in the set of an
    organization exactly when the most recent event about that organization
    and token had status [READY]. *)
Theorem claimers_ready_tracks_latest_status :
  (∀ m event o g t st,
     (st = READY → t ∈ claimers_of (_on_status_changed m event o g t st) o) ∧
     (st ≠ READY → t ∉ claimers_of (_on_status_changed m event o g t st) o)) ∧
  (∀ evs o t,
     t ∈ claimers_of (claimers_ready_after evs) o ↔ latest_status o t evs = Some READY).
Proof.
  split.
  - intros m event o g t st.
    rewrite elem_of_on_status_changed.
    rewrite decide_True by done. tauto.
  - intros evs o t. induction evs as [|ev evs IH] using rev_ind.
    + cbn. unfold claimers_of. rewrite lookup_empty. set_solver.
    + rewrite claimers_ready_after_snoc, latest_status_snoc.
      unfold deliver_status_changed. rewrite elem_of_on_status_changed.
      unfold concerns.
      destruct (decide (o = sc_organization_id ev ∧ t = sc_token ev)) as [[-> ->]|Hne].
      * rewrite decide_True by done. split; congruence.
      * rewrite decide_False by (intros [<- <-]; tauto). exact IH.
Qed.

(** An organization with a claimer that came, left and came back, and
    another one whose invitation was deleted. *)
Lemma claimers_ready_tracks_latest_status_witness :
  5%N ∈ claimers_of
          (claimers_ready_after
             [ {| sc_organization_id := "Org"; sc_greeter := "alice";
                  sc_token := 5%N; sc_status := READY |};
               {| sc_organization_id := "Org"; sc_greeter := "alice";
                  sc_token := 5%N; sc_status := IDLE |};
               {| sc_organization_id := "Org"; sc_greeter := "alice";
                  sc_token := 6%N; sc_status := DELETED |};
               {| sc_organization_id := "Org"; sc_greeter := "alice";
                  sc_token := 5%N; sc_status := READY |} ])
          "Org".
Proof.
  apply (proj2 claimers_ready_tracks_latest_status). reflexivity.
Defined.

(** ** [conduit_exchange] *)

Section ExchangeFacts.
Context {S : Type} `{!InviteBackend S}.
Implicit Types (w : World S) (listen_ctx : ConduitListenCtx.t).

Lemma filter_accepts_exactly filter_organization_id filter_token event o t :
  _conduit_updated_filter filter_organization_id filter_token event o t = true
  ↔ o = filter_organization_id ∧ t = filter_token.
Proof.
  unfold _conduit_updated_filter.
  rewrite andb_true_iff, !bool_decide_eq_true. done.
Qed.

(** The loop alone: what it logs, followed by the release of the waiter
    when the loop is left, is a sequence of rounds. *)
Lemma wait_and_listen_rounds listen_ctx pending w :
  ∃ log,
    calls (wait_and_listen listen_ctx pending w).2
      ++ on_leaving (wait_and_listen listen_ctx pending w).1
    = calls w ++ log
    ∧ loop_rounds listen_ctx log (wait_and_listen listen_ctx pending w).1.
Proof.
  revert w. induction pending as [|wk later IH]; intros w; cbn [wait_and_listen].
  - exists [WaiterWait None]. cbn. rewrite app_nil_r. split; [done | constructor].
  - unfold call_conduit_listen, record_call. cbn [backend wakeups calls].
    destruct (_conduit_listen listen_ctx (meanwhile wk (backend w)))
      as [[e | [peer_payload |]] s] eqn:Hlisten.
    + eexists. cbn. split; [| apply rounds_exception].
      rewrite <- !app_assoc. reflexivity.
    + eexists. cbn. split; [| apply rounds_payload].
      rewrite <- !app_assoc. reflexivity.
    + match goal with |- context [wait_and_listen listen_ctx later ?w3] =>
        destruct (IH w3) as (log & Hlog & Hrounds) end.
      exists (WaiterWait (Some (waited wk)) :: WaiterClear
              :: ConduitListen listen_ctx (inr None) :: log).
      split; [| by apply rounds_again].
      rewrite Hlog. cbn [calls]. rewrite <- !app_assoc. reflexivity.
Qed.

(** A run of [conduit_exchange]: the registration, the talk, and then either
    the release of the waiter with the talk's exception or the rounds of the
    loop on the listen-context of the talk. *)
Lemma conduit_exchange_run organization_id greeter token state payload w :
  ∃ log,
    calls (conduit_exchange organization_id greeter token state payload w).2
    = calls w
      ++ WaiterOn "invite.conduit_updated" (_conduit_updated_filter organization_id token)
      :: ConduitTalk organization_id greeter token state payload
           (_conduit_talk organization_id greeter token state payload (backend w)).1
      :: log
    ∧ match (_conduit_talk organization_id greeter token state payload (backend w)).1 with
      | inl e =>
          log = [WaiterExit]
          ∧ (conduit_exchange organization_id greeter token state payload w).1 = Raised e
      | inr listen_ctx =>
          loop_rounds listen_ctx log
            (conduit_exchange organization_id greeter token state payload w).1
      end.
Proof.
  unfold conduit_exchange, with_waiter_on, mbind, M_bind, call_conduit_talk,
    while_True_wait_and_listen, record_call.
  cbn [backend wakeups calls].
  destruct (_conduit_talk organization_id greeter token state payload (backend w))
    as [[e | listen_ctx] s] eqn:Htalk; cbn [fst snd].
  - exists [WaiterExit]. cbn. rewrite <- !app_assoc. done.
  - match goal with |- context [wait_and_listen listen_ctx ?p ?w1] =>
      destruct (wait_and_listen_rounds listen_ctx p w1) as (log & Hlog & Hrounds);
      destruct (wait_and_listen listen_ctx p w1) as [out w2] end.
    exists log. cbn [fst snd calls] in *.
    rewrite <- !app_assoc in Hlog. cbn [app] in Hlog.
    destruct out; cbn [fst snd calls on_leaving] in *;
      rewrite ?app_nil_r in Hlog; done.
Qed.

(** After a talk that returned, the call is its loop, run in the world the
    registration and the talk left, and the release of the waiter. *)
Lemma conduit_exchange_after_talk organization_id greeter token state payload w
    listen_ctx s :
  _conduit_talk organization_id greeter token state payload (backend w)
  = (inr listen_ctx, s) →
  conduit_exchange organization_id greeter token state payload w
  = let r := wait_and_listen listen_ctx (wakeups w)
               {| backend := s; wakeups := wakeups w;
                  calls := calls w
                    ++ [WaiterOn "invite.conduit_updated"
                          (_conduit_updated_filter organization_id token);
                        ConduitTalk organization_id greeter token state payload
                          (inr listen_ctx)] |} in
    (r.1, match r.1 with Blocked => r.2 | _ => record_call WaiterExit r.2 end).
Proof.
  intros Htalk.
  unfold conduit_exchange, with_waiter_on, mbind, M_bind, call_conduit_talk,
    while_True_wait_and_listen, record_call.
  cbn [backend wakeups calls]. rewrite Htalk. cbn [fst snd backend wakeups calls].
  rewrite <- app_assoc. cbn [app].
  destruct (wait_and_listen _ _ _) as [[| |] w2]; reflexivity.
Qed.

(** The loop alone, from its listens: where the first listen that produces
    something is, what the loop logs, which resumptions it leaves and the
    state it leaves. *)
Lemma wait_and_listen_first_answer listen_ctx pending w :
  wakeups w = pending →
  let r := wait_and_listen listen_ctx pending w in
  let answers := listen_answers listen_ctx (backend w) pending in
  match list_find produced answers with
  | Some (i, answer) =>
      match answer with
      | inr (Some peer_payload) => r.1 = Returned peer_payload
      | inl e => r.1 = Raised e
      | inr None => False
      end
      ∧ calls r.2
        = calls w ++ rounds_of listen_ctx (take (Datatypes.S i) pending) answers
      ∧ wakeups r.2 = drop (Datatypes.S i) pending
      ∧ backend r.2 = listened listen_ctx (backend w) (take (Datatypes.S i) pending)
  | None =>
      r.1 = Blocked
      ∧ calls r.2 = calls w ++ rounds_of listen_ctx pending answers ++ [WaiterWait None]
      ∧ wakeups r.2 = []
      ∧ backend r.2 = listened listen_ctx (backend w) pending
  end.
Proof.
  cbn zeta. revert w.
  induction pending as [|wk later IH]; intros w Hw;
    cbn [wait_and_listen listen_answers list_find].
  - cbn. by rewrite app_nil_r || done.
  - unfold call_conduit_listen, record_call, listen_after. cbn [backend wakeups calls].
    destruct (_conduit_listen listen_ctx (meanwhile wk (backend w)))
      as [[e | [peer_payload |]] s] eqn:Hlisten; cbn [fst snd].
    + rewrite decide_True by discriminate.
      unfold rounds_of, listened, listen_after. cbn. rewrite Hlisten.
      by rewrite <- !app_assoc.
    + rewrite decide_True by discriminate.
      unfold rounds_of, listened, listen_after. cbn. rewrite Hlisten.
      by rewrite <- !app_assoc.
    + rewrite decide_False by (intros Hproduced; by apply Hproduced).
      match goal with |- context [wait_and_listen listen_ctx later ?w3] =>
        specialize (IH w3 eq_refl); cbn [backend calls] in IH;
        destruct (wait_and_listen listen_ctx later w3) as [out w4]
      end.
      cbn [fst snd] in *.
      destruct (list_find produced (listen_answers listen_ctx s later))
        as [[i answer] |]; cbn [fmap option_fmap option_map prod_map fst snd id].
      * destruct IH as (Hout & Hcalls & Hleft & Hstate).
        split_and!; [exact Hout | | exact Hleft |].
        -- rewrite Hcalls. unfold rounds_of. cbn. by rewrite <- !app_assoc.
        -- rewrite Hstate. unfold listened, listen_after. cbn. by rewrite Hlisten.
      * destruct IH as (Hout & Hcalls & Hleft & Hstate).
        split_and!; [exact Hout | | exact Hleft |].
        -- rewrite Hcalls. unfold rounds_of. cbn. by rewrite <- !app_assoc.
        -- rewrite Hstate. unfold listened, listen_after. cbn. by rewrite Hlisten.
Qed.

(** C1. Every call of [conduit_exchange] first registers a waiter on
    ["invite.conduit_updated"] whose filter accepts exactly the events with
    the organization and token of the call, then calls [_conduit_talk] with
    the arguments of the call. If the talk raises, the waiter is released,
    the exception propagates and no resumption is taken. Otherwise the rest
    of the run is rounds of wait, clear and [_conduit_listen] on the
    listen-context the talk returned, one round for each resumption of the
    wait, in order, each listen answering what the implementation answers at
    that point. The rounds stop with the first listen that produces
    something: its payload is what the call returns (its exception what the
    call raises), the waiter is released and the later resumptions are left
    untouched. When no listen produces anything, the call has made a round
    for every resumption and stays suspended in one more wait. *)
Theorem conduit_exchange_protocol organization_id greeter token state payload w :
  let run := conduit_exchange organization_id greeter token state payload w in
  let talk := _conduit_talk organization_id greeter token state payload (backend w) in
  (∀ event o t,
     _conduit_updated_filter organization_id token event o t = true
     ↔ o = organization_id ∧ t = token) ∧
  ∃ log,
    calls run.2
    = calls w
      ++ WaiterOn "invite.conduit_updated" (_conduit_updated_filter organization_id token)
      :: ConduitTalk organization_id greeter token state payload talk.1
      :: log
    ∧ match talk.1 with
      | inl e =>
          log = [WaiterExit] ∧ run.1 = Raised e
          ∧ wakeups run.2 = wakeups w ∧ backend run.2 = talk.2
      | inr listen_ctx =>
          let answers := listen_answers listen_ctx talk.2 (wakeups w) in
          loop_rounds listen_ctx log run.1
          ∧ match list_find produced answers with
            | Some (i, answer) =>
                let taken := take (Datatypes.S i) (wakeups w) in
                match answer with
                | inr (Some peer_payload) => run.1 = Returned peer_payload
                | inl e => run.1 = Raised e
                | inr None => False
                end
                ∧ log = rounds_of listen_ctx taken answers ++ [WaiterExit]
                ∧ wakeups run.2 = drop (Datatypes.S i) (wakeups w)
                ∧ backend run.2 = listened listen_ctx talk.2 taken
            | None =>
                run.1 = Blocked
                ∧ log = rounds_of listen_ctx (wakeups w) answers ++ [WaiterWait None]
                ∧ wakeups run.2 = []
                ∧ backend run.2 = listened listen_ctx talk.2 (wakeups w)
            end
      end.
Proof.
  cbn zeta. split; [intros; apply filter_accepts_exactly |].
  destruct (conduit_exchange_run organization_id greeter token state payload w)
    as (log & Hcalls & Hrun).
  exists log. split; [exact Hcalls |].
  destruct (_conduit_talk organization_id greeter token state payload (backend w))
    as [[e | listen_ctx] s] eqn:Htalk; cbn [fst snd] in *.
  - destruct Hrun as [-> Hraised]. split_and!; [done | done | |].
    + unfold conduit_exchange, with_waiter_on, mbind, M_bind, call_conduit_talk,
        record_call. cbn [backend wakeups calls]. by rewrite Htalk.
    + unfold conduit_exchange, with_waiter_on, mbind, M_bind, call_conduit_talk,
        record_call. cbn [backend wakeups calls]. by rewrite Htalk.
  - split; [exact Hrun |].
    revert Hcalls. clear Hrun.
    rewrite (conduit_exchange_after_talk _ _ _ _ _ _ _ _ Htalk). cbn zeta.
    match goal with |- context [wait_and_listen listen_ctx ?p ?w1] =>
      pose proof (wait_and_listen_first_answer listen_ctx p w1 eq_refl) as Hloop;
      cbn zeta in Hloop; cbn [backend calls] in Hloop;
      destruct (wait_and_listen listen_ctx p w1) as [out w2]
    end.
    cbn [fst snd] in *.
    destruct (list_find produced (listen_answers listen_ctx s (wakeups w)))
      as [[i answer] |].
    + destruct Hloop as (Hout & Hlog & Hleft & Hstate).
      assert (out ≠ Blocked) as Hended.
      { destruct answer as [e | [peer_payload |]]; [| | done]; rewrite Hout; discriminate. }
      destruct out as [peer_payload | e |]; [| | done];
        cbn [record_call calls wakeups backend]; intros Hcalls;
        rewrite Hlog, <- !app_assoc in Hcalls; cbn [app] in Hcalls;
        apply app_inv_head in Hcalls; injection Hcalls as <-;
        done.
    + destruct Hloop as (-> & Hlog & Hleft & Hstate).
      intros Hcalls.
      rewrite Hlog, <- !app_assoc in Hcalls. cbn [app] in Hcalls.
      apply app_inv_head in Hcalls. injection Hcalls as <-.
      done.
Qed.

Lemma loop_rounds_returned listen_ctx log peer_payload :
  loop_rounds listen_ctx log (Returned peer_payload) →
  ∃ seconds middle,
    log = [WaiterWait (Some seconds); WaiterClear] ++ middle
          ++ [ConduitListen listen_ctx (inr (Some peer_payload)); WaiterExit].
Proof.
  intros Hrounds. remember (Returned peer_payload) as out eqn:Hout.
  induction Hrounds as [| seconds p | seconds e | seconds log out Hrounds IH];
    try discriminate.
  - injection Hout as ->. by exists seconds, [].
  - destruct (IH Hout) as (seconds' & middle & ->).
    exists seconds.
    by exists (ConduitListen listen_ctx (inr None)
               :: WaiterWait (Some seconds') :: WaiterClear :: middle).
Qed.

(** Rounds in which no listen produced a payload or raised do not end. *)
Lemma loop_rounds_silent listen_ctx log out :
  loop_rounds listen_ctx log out →
  (∀ heard, heard ∈ listens_of log → heard.2 = inr None) →
  out = Blocked.
Proof.
  induction 1 as [| seconds p | seconds e | seconds log out Hrounds IH];
    intros Hsilent.
  - done.
  - specialize (Hsilent (listen_ctx, inr (Some p))). cbn in Hsilent.
    discriminate Hsilent. set_solver.
  - specialize (Hsilent (listen_ctx, inl e)). cbn in Hsilent.
    discriminate Hsilent. set_solver.
  - apply IH. intros heard Hheard. apply Hsilent. cbn. set_solver.
Qed.

(** A loop that ends suspended went through every resumption it was given. *)
Lemma wait_and_listen_blocked listen_ctx pending w :
  (wait_and_listen listen_ctx pending w).1 = Blocked →
  (wakeups w = pending → wakeups (wait_and_listen listen_ctx pending w).2 = [])
  ∧ ∃ log,
      calls (wait_and_listen listen_ctx pending w).2 = calls w ++ log
      ∧ seconds_waited log = sum_list (waited <$> pending)
      ∧ length (listens_of log) = length pending
      ∧ last log = Some (WaiterWait None).
Proof.
  revert w. induction pending as [|wk later IH]; intros w; cbn [wait_and_listen].
  - intros _. split; [done |]. by exists [WaiterWait None].
  - unfold call_conduit_listen, record_call. cbn [backend wakeups calls].
    destruct (_conduit_listen listen_ctx (meanwhile wk (backend w)))
      as [[e | [peer_payload |]] s] eqn:Hlisten; cbn [fst snd]; try discriminate.
    intros Hblocked.
    match type of Hblocked with context [wait_and_listen listen_ctx later ?w3] =>
      destruct (IH w3 Hblocked) as (Hleft & log & Hlog & Hseconds & Hlistens & Hlast) end.
    split; [intros _; by apply Hleft |].
    exists (WaiterWait (Some (waited wk)) :: WaiterClear
            :: ConduitListen listen_ctx (inr None) :: log).
    split_and!.
    + rewrite Hlog. cbn [calls]. by rewrite <- !app_assoc.
    + unfold seconds_waited in *. cbn. by rewrite Hseconds.
    + unfold listens_of in *. cbn. by rewrite Hlistens.
    + by rewrite !last_cons, Hlast.
Qed.

(** C10. A call of [conduit_exchange] that returns has been resumed from
    at least one wait, and made its first [_conduit_listen] call only after
    that wait and the clear that follows it; what it returns is the payload
    answered by its last [_conduit_listen] call, whatever peer payload the
    listen-context of the talk already held. In particular, with no
    resumption of the wait the call does not return. *)
Theorem conduit_exchange_returns_a_listen_answer organization_id greeter token state
    payload w :
  let run := conduit_exchange organization_id greeter token state payload w in
  (wakeups w = [] → ∀ peer_payload, run.1 ≠ Returned peer_payload) ∧
  (∀ peer_payload, run.1 = Returned peer_payload →
     ∃ listen_ctx seconds middle,
       (_conduit_talk organization_id greeter token state payload (backend w)).1
       = inr listen_ctx
       ∧ calls_since w run.2
         = [WaiterOn "invite.conduit_updated"
              (_conduit_updated_filter organization_id token);
            ConduitTalk organization_id greeter token state payload (inr listen_ctx);
            WaiterWait (Some seconds); WaiterClear]
           ++ middle
           ++ [ConduitListen listen_ctx (inr (Some peer_payload)); WaiterExit]).
Proof.
  cbn zeta. split.
  - intros Hnone peer_payload.
    destruct (_conduit_talk organization_id greeter token state payload (backend w))
      as [[e | listen_ctx] s] eqn:Htalk.
    + destruct (conduit_exchange_run organization_id greeter token state payload w)
        as (log & _ & Hout).
      rewrite Htalk in Hout. cbn in Hout. destruct Hout as [_ ->]. discriminate.
    + rewrite (conduit_exchange_after_talk _ _ _ _ _ _ _ _ Htalk).
      rewrite Hnone. cbn. discriminate.
  - intros peer_payload Hreturned.
    destruct (conduit_exchange_run organization_id greeter token state payload w)
      as (log & Hcalls & Hout).
    destruct (_conduit_talk organization_id greeter token state payload (backend w)).1
      as [e | listen_ctx].
    + destruct Hout as [_ Hraised]. congruence.
    + rewrite Hreturned in Hout.
      destruct (loop_rounds_returned _ _ _ Hout) as (seconds & middle & ->).
      exists listen_ctx, seconds, middle. split; [done |].
      unfold calls_since. rewrite Hcalls. by rewrite drop_app_length.
Qed.

(** C4. [PEER_EVENT_MAX_WAIT] is 300, and [conduit_exchange] puts no bound
    on its waiting: when the talk returned and no [_conduit_listen] of the
    run produced a payload or raised (the peer never contributes), the call
    neither returns nor raises. It listened once per resumption of its wait,
    stayed suspended for all the seconds these waits lasted, however many,
    and is suspended in one more wait. *)
Theorem conduit_exchange_waits_without_bound organization_id greeter token state
    payload w listen_ctx :
  let run := conduit_exchange organization_id greeter token state payload w in
  (_conduit_talk organization_id greeter token state payload (backend w)).1
  = inr listen_ctx →
  (∀ heard, heard ∈ listens_of (calls_since w run.2) → heard.2 = inr None) →
  PEER_EVENT_MAX_WAIT = 300
  ∧ run.1 = Blocked
  ∧ wakeups run.2 = []
  ∧ seconds_waited (calls_since w run.2) = sum_list (waited <$> wakeups w)
  ∧ length (listens_of (calls_since w run.2)) = length (wakeups w)
  ∧ last (calls run.2) = Some (WaiterWait None).
Proof.
  cbn zeta. intros Htalk Hsilent. split; [done |].
  destruct (conduit_exchange_run organization_id greeter token state payload w)
    as (log & Hcalls & Hout).
  rewrite Htalk in Hout.
  assert ((conduit_exchange organization_id greeter token state payload w).1 = Blocked)
    as Hblocked.
  { eapply loop_rounds_silent; [exact Hout |].
    intros heard Hheard. apply Hsilent.
    unfold calls_since. rewrite Hcalls, drop_app_length.
    unfold listens_of in *. cbn. exact Hheard. }
  split; [done |].
  destruct (_conduit_talk organization_id greeter token state payload (backend w))
    as [answer s] eqn:Hanswer.
  cbn in Htalk. subst answer.
  revert Hblocked. unfold calls_since.
  rewrite (conduit_exchange_after_talk _ _ _ _ _ _ _ _ Hanswer). cbn zeta. cbn [fst snd].
  intros Hblocked. rewrite Hblocked.
  destruct (wait_and_listen_blocked _ _ _ Hblocked)
    as (Hleft & log' & Hlog & Hsec & Hlen & Hlast).
  split; [by apply Hleft |].
  rewrite Hlog. cbn [calls]. rewrite last_app, Hlast.
  rewrite <- app_assoc, drop_app_length.
  split_and!; [| | done].
  - unfold seconds_waited in *. cbn. exact Hsec.
  - unfold listens_of in *. cbn. exact Hlen.
Qed.

End ExchangeFacts.

(** ** The handlers *)

Section HandlerFacts.
Context {S : Type} `{!InviteBackend S}.
Implicit Types (w : World S).

(** Every handler is the exchanges of its row followed by the reply of its
    row. *)
Lemma api_conduit_cmd_table cmd w :
  api_conduit_cmd cmd w
  = (table_reply cmd (table_exchanges cmd w).1, (table_exchanges cmd w).2).
Proof.
  destruct cmd; cbn [api_conduit_cmd table_exchanges];
    unfold api_invite_1_claimer_wait_peer, api_invite_1_greeter_wait_peer,
      api_invite_2a_claimer_send_hashed_nonce, api_invite_2a_greeter_get_hashed_nonce,
      api_invite_2b_greeter_send_nonce, api_invite_2b_claimer_send_nonce,
      api_invite_3a_greeter_wait_peer_trust, api_invite_3b_claimer_wait_peer_trust,
      api_invite_3b_greeter_signify_trust, api_invite_3a_claimer_signify_trust,
      api_invite_4_greeter_communicate, api_invite_4_claimer_communicate,
      try_except, as_claimer, as_greeter;
    match goal with |- context [match ?m w with _ => _ end] =>
      destruct (m w) as [[peer_payload | [] |] w'] end;
    try reflexivity;
    cbn [table_reply table_payload_field fst snd];
    unfold mbind, M_bind, returned_or_raised;
    destruct (PublicKey_of_raw peer_payload); reflexivity.
Qed.



Lemma loop_rounds_no_talk listen_ctx log out :
  loop_rounds listen_ctx log out → exchanges_of log = [].
Proof. induction 1; done. Qed.

(** A call of [conduit_exchange] only adds to the log, and the one exchange
    the added calls start is the call itself. *)
Lemma conduit_exchange_calls organization_id greeter token state payload w :
  ∃ log,
    calls (conduit_exchange organization_id greeter token state payload w).2
    = calls w ++ log
    ∧ exchanges_of log = [(organization_id, greeter, token, state, payload)].
Proof.
  destruct (conduit_exchange_run organization_id greeter token state payload w)
    as (log & Hcalls & Hout).
  eexists. split; [exact Hcalls |].
  unfold exchanges_of. cbn. f_equal.
  destruct (_conduit_talk organization_id greeter token state payload (backend w)).1.
  - by destruct Hout as [-> _].
  - by apply loop_rounds_no_talk in Hout.
Qed.

Lemma calls_since_app w (l : list Call) w' :
  calls w' = calls w ++ l → calls_since w w' = l.
Proof. unfold calls_since. intros ->. apply drop_app_length. Qed.

(** Two exchanges run one after the other in a handler. *)
Lemma two_exchanges o1 g1 t1 s1 p1 o2 g2 t2 s2 p2 w :
  let first := conduit_exchange o1 g1 t1 s1 p1 w in
  let second := conduit_exchange o2 g2 t2 s2 p2 first.2 in
  let both := (_ ← conduit_exchange o1 g1 t1 s1 p1; conduit_exchange o2 g2 t2 s2 p2) w in
  match first.1 with
  | Returned _ =>
      both = second
      ∧ calls_since w both.2 = calls_since w first.2 ++ calls_since first.2 second.2
      ∧ exchanges_of (calls_since w both.2) = [(o1, g1, t1, s1, p1); (o2, g2, t2, s2, p2)]
  | _ =>
      both = (match first.1 with Raised e => Raised e | _ => Blocked end, first.2)
      ∧ exchanges_of (calls_since w both.2) = [(o1, g1, t1, s1, p1)]
  end.
Proof.
  cbn zeta. unfold mbind, M_bind.
  destruct (conduit_exchange_calls o1 g1 t1 s1 p1 w) as (l1 & Hl1 & He1).
  destruct (conduit_exchange o1 g1 t1 s1 p1 w) as [[discarded | e |] w1];
    cbn [fst snd] in *.
  - destruct (conduit_exchange_calls o2 g2 t2 s2 p2 w1) as (l2 & Hl2 & He2).
    destruct (conduit_exchange o2 g2 t2 s2 p2 w1) as [out2 w2]; cbn [fst snd] in *.
    split; [done |].
    rewrite (calls_since_app w1 l2 w2 Hl2), (calls_since_app w l1 w1 Hl1).
    rewrite (calls_since_app w (l1 ++ l2) w2) by (by rewrite Hl2, Hl1, app_assoc).
    split; [done |].
    unfold exchanges_of in *. by rewrite omap_app, He1, He2.
  - split; [done |]. by rewrite (calls_since_app w l1 w1 Hl1).
  - split; [done |]. by rewrite (calls_since_app w l1 w1 Hl1).
Qed.

(** The three ways the first of two chained exchanges can end, given what
    [two_exchanges] says of the pair. *)
Ltac chain_cases Htwo first_state second_state :=
  cbn zeta in Htwo; unfold try_except;
  destruct (conduit_exchange _ _ _ first_state _ _) as [[discarded | e |] w1];
  cbn [fst snd] in *;
  [ destruct Htwo as (Hboth & Hlog & Hex); rewrite Hboth in *;
    split; [intros Hnot; by destruct (Hnot discarded) |];
    intros _ _;
    destruct (conduit_exchange _ _ _ second_state _ w1) as [[p | [] |] w2];
    cbn [fst snd] in *; split_and!; try done; by intros ? [= ->]
  | destruct Htwo as (Hboth & Hex); rewrite Hboth in *;
    split; [intros _ | done]; by destruct e
  | destruct Htwo as (Hboth & Hex); rewrite Hboth in *;
    split; [intros _ | done]; done ].

(** C5. [api_invite_2a_claimer_send_hashed_nonce] exchanges as the claimer
    at [STATE_2_1_CLAIMER_HASHED_NONCE] with the hashed nonce of the request
    and, once that exchange has returned, at [STATE_2_2_GREETER_NONCE] with
    the empty payload: these two exchanges and no other, the second starting
    where the first ended, the payload of the first is dropped and the
    payload of the second is the [greeter_nonce] of the reply.
    [api_invite_2b_greeter_send_nonce] does the same as the greeter at
    [STATE_2_2_GREETER_NONCE] with the greeter nonce of the request and then
    at [STATE_2_3_CLAIMER_NONCE] with the empty payload, and replies the
    payload of the second as [claimer_nonce]. *)
Theorem chaining_handlers_exchange_twice w :
  (∀ (client_ctx : Invited.t) (msg : Msg.t),
     let organization_id := Invited.organization_id client_ctx in
     let token := Invitation_token (Invited.invitation client_ctx) in
     let first := conduit_exchange organization_id None token
                    STATE_2_1_CLAIMER_HASHED_NONCE (Msg.claimer_hashed_nonce msg) w in
     let second := conduit_exchange organization_id None token
                     STATE_2_2_GREETER_NONCE [] first.2 in
     let run := api_invite_2a_claimer_send_hashed_nonce client_ctx msg w in
     ((∀ discarded, first.1 ≠ Returned discarded) →
        run.2 = first.2
        ∧ exchanges_of (calls_since w run.2)
          = [ (organization_id, None, token,
               STATE_2_1_CLAIMER_HASHED_NONCE, Msg.claimer_hashed_nonce msg) ])
     ∧
     ∀ discarded, first.1 = Returned discarded →
       run.2 = second.2
       ∧ calls_since w run.2 = calls_since w first.2 ++ calls_since first.2 second.2
       ∧ exchanges_of (calls_since w run.2)
         = [ (organization_id, None, token,
              STATE_2_1_CLAIMER_HASHED_NONCE, Msg.claimer_hashed_nonce msg);
             (organization_id, None, token, STATE_2_2_GREETER_NONCE, []) ]
       ∧ ∀ greeter_nonce, second.1 = Returned greeter_nonce →
           run.1 = Returned
                     (rep_dump invite_2a_claimer_send_hashed_nonce_serializer
                        {[ "status" := VStr "ok";
                           "greeter_nonce" := VBytes greeter_nonce ]}))
  ∧
  (∀ (client_ctx : Authenticated.t) (msg : Msg.t),
     let organization_id := Authenticated.organization_id client_ctx in
     let greeter := Some (Authenticated.user_id client_ctx) in
     let token := Msg.token msg in
     let first := conduit_exchange organization_id greeter token
                    STATE_2_2_GREETER_NONCE (Msg.greeter_nonce msg) w in
     let second := conduit_exchange organization_id greeter token
                     STATE_2_3_CLAIMER_NONCE [] first.2 in
     let run := api_invite_2b_greeter_send_nonce client_ctx msg w in
     ((∀ discarded, first.1 ≠ Returned discarded) →
        run.2 = first.2
        ∧ exchanges_of (calls_since w run.2)
          = [ (organization_id, greeter, token,
               STATE_2_2_GREETER_NONCE, Msg.greeter_nonce msg) ])
     ∧
     ∀ discarded, first.1 = Returned discarded →
       run.2 = second.2
       ∧ calls_since w run.2 = calls_since w first.2 ++ calls_since first.2 second.2
       ∧ exchanges_of (calls_since w run.2)
         = [ (organization_id, greeter, token,
              STATE_2_2_GREETER_NONCE, Msg.greeter_nonce msg);
             (organization_id, greeter, token, STATE_2_3_CLAIMER_NONCE, []) ]
       ∧ ∀ claimer_nonce, second.1 = Returned claimer_nonce →
           run.1 = Returned
                     (rep_dump invite_2b_greeter_send_nonce_serializer
                        {[ "status" := VStr "ok";
                           "claimer_nonce" := VBytes claimer_nonce ]})).
Proof.
  split; intros client_ctx msg; cbn zeta.
  - pose proof (two_exchanges (Invited.organization_id client_ctx) None
        (Invitation_token (Invited.invitation client_ctx))
        STATE_2_1_CLAIMER_HASHED_NONCE (Msg.claimer_hashed_nonce msg)
        (Invited.organization_id client_ctx) None
        (Invitation_token (Invited.invitation client_ctx))
        STATE_2_2_GREETER_NONCE [] w) as Htwo.
    unfold api_invite_2a_claimer_send_hashed_nonce.
    chain_cases Htwo STATE_2_1_CLAIMER_HASHED_NONCE STATE_2_2_GREETER_NONCE.
  - pose proof (two_exchanges (Authenticated.organization_id client_ctx)
        (Some (Authenticated.user_id client_ctx)) (Msg.token msg)
        STATE_2_2_GREETER_NONCE (Msg.greeter_nonce msg)
        (Authenticated.organization_id client_ctx)
        (Some (Authenticated.user_id client_ctx)) (Msg.token msg)
        STATE_2_3_CLAIMER_NONCE [] w) as Htwo.
    unfold api_invite_2b_greeter_send_nonce.
    chain_cases Htwo STATE_2_2_GREETER_NONCE STATE_2_3_CLAIMER_NONCE.
Qed.

(** C7. For an [invite_new] request of type [USER]: a caller whose profile
    is not [ADMIN] is answered [not_allowed], and nothing else happens (no
    abstract method is called, the state of the implementation is left as it
    was, so no invitation is created); an [ADMIN] caller with [send_email]
    set is answered [not_implemented], nothing else happening either; any
    other [ADMIN] request calls [new_for_user] with the organization and user
    of the caller and the e-mail of the request, and is answered [ok] with the
    token of the invitation that call returned. *)
Theorem invite_new_for_user (client_ctx : Authenticated.t) (msg : Msg.t) w :
  Msg.type msg = USER →
  let run := api_invite_new client_ctx msg w in
  (Authenticated.profile client_ctx ≠ ADMIN →
     run = (Returned (rep_dump invite_new_serializer
                        {[ "status" := VStr "not_allowed" ]}), w))
  ∧ (Authenticated.profile client_ctx = ADMIN → Msg.send_email msg = true →
     run = (Returned (rep_dump invite_new_serializer
                        {[ "status" := VStr "not_implemented" ]}), w))
  ∧ (Authenticated.profile client_ctx = ADMIN → Msg.send_email msg = false →
     let created :=
       new_for_user (Authenticated.organization_id client_ctx)
         (Authenticated.user_id client_ctx) (Msg.claimer_email msg) (backend w) in
     run = (Returned (rep_dump invite_new_serializer
                        {[ "status" := VStr "ok";
                           "token" := VToken (UserInvitation.token created.1) ]}),
            {| backend := created.2; wakeups := wakeups w;
               calls := calls w
                 ++ [NewForUser (Authenticated.organization_id client_ctx)
                       (Authenticated.user_id client_ctx) (Msg.claimer_email msg)
                       created.1] |})).
Proof.
  intros Htype. cbn zeta. unfold api_invite_new.
  rewrite decide_True by done. split_and!.
  - intros Hprofile. by rewrite decide_True.
  - intros Hprofile ->. by rewrite decide_False by (by intros ?).
  - intros Hprofile ->. rewrite decide_False by (by intros ?).
    unfold mbind, M_bind, call_new_for_user.
    by destruct (new_for_user _ _ _ _).
Qed.

(** C9. For an [invite_new] request of type [DEVICE], whatever the profile
    of the caller and whatever [send_email], the handler calls
    [new_for_device] with the organization and user of the caller and answers
    [ok] with the token of the invitation that call returned. A reply
    [not_allowed] or [not_implemented] only comes for a request of type
    [USER]. *)
Theorem invite_new_for_device (client_ctx : Authenticated.t) (msg : Msg.t) w :
  let run := api_invite_new client_ctx msg w in
  (Msg.type msg = DEVICE →
     let created :=
       new_for_device (Authenticated.organization_id client_ctx)
         (Authenticated.user_id client_ctx) (backend w) in
     run = (Returned (rep_dump invite_new_serializer
                        {[ "status" := VStr "ok";
                           "token" := VToken (DeviceInvitation.token created.1) ]}),
            {| backend := created.2; wakeups := wakeups w;
               calls := calls w
                 ++ [NewForDevice (Authenticated.organization_id client_ctx)
                       (Authenticated.user_id client_ctx) created.1] |}))
  ∧ (∀ rep, run.1 = Returned rep →
       Reply_status rep = Some (VStr "not_allowed")
       ∨ Reply_status rep = Some (VStr "not_implemented") →
       Msg.type msg = USER).
Proof.
  cbn zeta. unfold api_invite_new. split.
  - intros Htype. rewrite decide_False by (by rewrite Htype).
    unfold mbind, M_bind, call_new_for_device.
    by destruct (new_for_device _ _ _).
  - intros rep. destruct (decide (Msg.type msg = USER)) as [|Hdevice]; [done |].
    unfold mbind, M_bind, call_new_for_device.
    destruct (new_for_device _ _ _) as [invitation s]. cbn [fst].
    intros [= <-]. unfold Reply_status. cbn [Reply_data].
    intros [Hst | Hst]; vm_compute in Hst; discriminate.
Qed.

(** C6. [api_invite_info] answers from the invitation fetched during the
    handshake and from nothing else: it calls no abstract method and leaves
    the world as it was, and whatever the status of that invitation and
    whatever [info] would report about its token, the reply is the
    [rep_dump] of the details of the invitation (type, greeter and, for a user
    invitation, the claimer's e-mail), never a reply of status
    [already_deleted] and never an exception. *)
Theorem invite_info_answers_from_the_handshake (client_ctx : Invited.t) (msg : Msg.t) w :
  let run := api_invite_info client_ctx msg w in
  run.2 = w
  ∧ ∃ data,
      run.1 = Returned (rep_dump invite_info_serializer data)
      ∧ data !! "status" = None
      ∧ match Invited.invitation client_ctx with
        | AUserInvitation invitation =>
            data = {[ "type" := VType USER;
                      "claimer_email" := VStr (UserInvitation.claimer_email invitation);
                      "greeter_user_id" :=
                        VUserID (UserInvitation.greeter_user_id invitation);
                      "greeter_human_handle" :=
                        VHandle (UserInvitation.greeter_human_handle invitation) ]}
        | ADeviceInvitation invitation =>
            data = {[ "type" := VType DEVICE;
                      "greeter_user_id" :=
                        VUserID (DeviceInvitation.greeter_user_id invitation);
                      "greeter_human_handle" :=
                        VHandle (DeviceInvitation.greeter_human_handle invitation) ]}
        end.
Proof.
  cbn zeta. unfold api_invite_info. split; [done |].
  eexists. split; [reflexivity |].
  by destruct (Invited.invitation client_ctx).
Qed.

End HandlerFacts.

(** * Runs on concrete inputs *)

(** The table at its sixth row. *)
Lemma NEXT_CONDUIT_STATE_table_witness :
  NEXT_CONDUIT_STATE !! STATE_3_2_GREETER_TRUST = Some STATE_4_COMMUNICATE.
Proof.
  apply (proj2 (proj2 (proj2 (proj2 (proj2 (proj2 (proj2 (proj2 (proj2 (proj2
           NEXT_CONDUIT_STATE_table))))))))) 5 STATE_3_2_GREETER_TRUST).
  reflexivity.
Defined.

(** The claimer waits for its peer: the talk finds the peer's payload [01]
    already there, the first listen answers [None], the second one [02].
    Three resumptions are to come, of 3, 4 and 5 seconds: the call makes two
    rounds, returns [02] and leaves the third resumption. *)
Lemma conduit_exchange_protocol_witness :
  let w := scripted_world early_peer [3; 4; 5] in
  let run := conduit_exchange "Org" None 5%N STATE_1_WAIT_PEERS [Byte.x09] w in
  ∃ listen_ctx log,
    calls run.2
    = [ WaiterOn "invite.conduit_updated" (_conduit_updated_filter "Org" 5%N);
        ConduitTalk "Org" None 5%N STATE_1_WAIT_PEERS [Byte.x09] (inr listen_ctx) ]
      ++ log
    ∧ loop_rounds listen_ctx log (Returned [Byte.x02])
    ∧ run.1 = Returned [Byte.x02]
    ∧ log = [ WaiterWait (Some 3); WaiterClear; ConduitListen listen_ctx (inr None);
              WaiterWait (Some 4); WaiterClear;
              ConduitListen listen_ctx (inr (Some [Byte.x02]));
              WaiterExit ]
    ∧ wakeups run.2 = drop 2 (wakeups w).
Proof.
  cbn zeta.
  destruct (conduit_exchange_protocol "Org" None 5%N STATE_1_WAIT_PEERS [Byte.x09]
              (scripted_world early_peer [3; 4; 5]))
    as [_ (log & Hcalls & Hrounds & Hreturned & Hlog & Hleft & _)].
  eexists _, log.
  split_and!; [exact Hcalls | exact Hrounds | exact Hreturned | exact Hlog | exact Hleft].
Defined.


(** Two resumptions of 200 seconds each and a peer that never contributes. *)
Lemma conduit_exchange_waits_without_bound_witness :
  let w := scripted_world absent_peer [200; 200] in
  let run := conduit_exchange "Org" None 5%N STATE_1_WAIT_PEERS [] w in
  run.1 = Blocked ∧ seconds_waited (calls_since w run.2) = 400.
Proof.
  cbn zeta.
  destruct (conduit_exchange_waits_without_bound "Org" None 5%N STATE_1_WAIT_PEERS []
              (scripted_world absent_peer [200; 200])
              {| ConduitListenCtx.organization_id := "Org";
                 ConduitListenCtx.greeter := None;
                 ConduitListenCtx.token := 5%N;
                 ConduitListenCtx.state := STATE_1_WAIT_PEERS;
                 ConduitListenCtx.payload := [];
                 ConduitListenCtx.peer_payload := None |})
    as (_ & Hblocked & _ & Hseconds & _).
  - reflexivity.
  - intros heard Hheard. vm_compute in Hheard.
    apply list_elem_of_In in Hheard.
    destruct Hheard as [<- | [<- | []]]; reflexivity.
  - split; [exact Hblocked | exact Hseconds].
Defined.

(** The claimer sends its hashed nonce; the peer answers both exchanges. *)
Lemma chaining_handlers_exchange_twice_witness :
  let w := scripted_world prompt_peer [1; 1] in
  let run := api_invite_2a_claimer_send_hashed_nonce (claimer_5 READY) blank_msg w in
  run.1 = Returned (rep_dump invite_2a_claimer_send_hashed_nonce_serializer
                      {[ "status" := VStr "ok"; "greeter_nonce" := VBytes [Byte.x0b] ]})
  ∧ exchanges_of (calls_since w run.2)
    = [ ("Org", None, 5%N, STATE_2_1_CLAIMER_HASHED_NONCE, []);
        ("Org", None, 5%N, STATE_2_2_GREETER_NONCE, []) ].
Proof.
  cbn zeta.
  destruct (proj2 (proj1 (chaining_handlers_exchange_twice (scripted_world prompt_peer [1; 1]))
                     (claimer_5 READY) blank_msg) [Byte.x0a])
    as (_ & _ & Hexchanges & Hreply).
  - reflexivity.
  - split; [apply Hreply; reflexivity | exact Hexchanges].
Defined.

(** A standard user, then an administrator, asks for a user invitation. *)
Lemma invite_new_for_user_witness :
  api_invite_new (alice STANDARD) user_request (scripted_world absent_peer [])
  = (Returned (rep_dump invite_new_serializer {[ "status" := VStr "not_allowed" ]}),
     scripted_world absent_peer [])
  ∧ (api_invite_new (alice ADMIN) user_request (scripted_world absent_peer [])).1
    = Returned (rep_dump invite_new_serializer
                  {[ "status" := VStr "ok"; "token" := VToken 6%N ]}).
Proof.
  split.
  - apply (proj1 (invite_new_for_user (alice STANDARD) user_request
                    (scripted_world absent_peer []) eq_refl)).
    discriminate.
  - rewrite (proj2 (proj2 (invite_new_for_user (alice ADMIN) user_request
                             (scripted_world absent_peer []) eq_refl))
               eq_refl eq_refl).
    reflexivity.
Defined.

(** An outsider asks for a device invitation, [send_email] set. *)
Lemma invite_new_for_device_witness :
  (api_invite_new (alice OUTSIDER) device_request (scripted_world absent_peer [])).1
  = Returned (rep_dump invite_new_serializer
                {[ "status" := VStr "ok"; "token" := VToken 6%N ]}).
Proof.
  rewrite (proj1 (invite_new_for_device (alice OUTSIDER) device_request
                    (scripted_world absent_peer [])) eq_refl).
  reflexivity.
Defined.

(** The talk already holds the peer's payload [01]; what is returned is the
    [02] of the second listen, after two resumed waits. *)
Lemma conduit_exchange_returns_a_listen_answer_witness :
  let w := scripted_world early_peer [3; 4; 5] in
  let run := conduit_exchange "Org" None 5%N STATE_1_WAIT_PEERS [Byte.x09] w in
  ∃ listen_ctx seconds middle,
    ConduitListenCtx.peer_payload listen_ctx = Some [Byte.x01]
    ∧ calls_since w run.2
      = [ WaiterOn "invite.conduit_updated" (_conduit_updated_filter "Org" 5%N);
          ConduitTalk "Org" None 5%N STATE_1_WAIT_PEERS [Byte.x09] (inr listen_ctx);
          WaiterWait (Some seconds); WaiterClear ]
        ++ middle
        ++ [ConduitListen listen_ctx (inr (Some [Byte.x02])); WaiterExit].
Proof.
  cbn zeta.
  destruct (proj2 (conduit_exchange_returns_a_listen_answer "Org" None 5%N
                     STATE_1_WAIT_PEERS [Byte.x09] (scripted_world early_peer [3; 4; 5]))
              [Byte.x02])
    as (listen_ctx & seconds & middle & Htalk & Hcalls).
  - reflexivity.
  - exists listen_ctx, seconds, middle. split; [| exact Hcalls].
    cbn in Htalk. by injection Htalk as <-.
Defined.

(** The claimer asks for the details of an invitation that was deleted. *)
Lemma invite_info_answers_from_the_handshake_witness :
  (api_invite_info (claimer_5 DELETED) blank_msg (scripted_world after_delete [])).2
  = scripted_world after_delete [].
Proof.
  apply (proj1 (invite_info_answers_from_the_handshake (claimer_5 DELETED) blank_msg
                  (scripted_world after_delete []))).
Defined.

(** * Where the code departs from the specification *)

(** C4, as the specification has it, fails here: the peer never
    contributes (the talk finds no payload, the only listen answers [None]),
    the call has stayed suspended for 301 seconds, more than
    [PEER_EVENT_MAX_WAIT], and it has not failed with any exception, timeout
    or other: it is waiting again. *)
Lemma conduit_exchange_timeout_counterexample :
  let w := scripted_world absent_peer [301] in
  let run := conduit_exchange "Org" None 5%N STATE_1_WAIT_PEERS [] w in
  (∃ listen_ctx,
     (_conduit_talk "Org" None 5%N STATE_1_WAIT_PEERS [] (backend w)).1 = inr listen_ctx)
  ∧ (∀ heard, heard ∈ listens_of (calls_since w run.2) → heard.2 = inr None)
  ∧ PEER_EVENT_MAX_WAIT < seconds_waited (calls_since w run.2)
  ∧ ¬ (∃ e, run.1 = Raised e)
  ∧ run.1 = Blocked
  ∧ last (calls run.2) = Some (WaiterWait None).
Proof.
  cbn zeta. split_and!.
  - eexists. reflexivity.
  - intros heard Hheard. vm_compute in Hheard.
    apply list_elem_of_In in Hheard. destruct Hheard as [<- | []]. reflexivity.
  - vm_compute. lia.
  - intros [e He]. vm_compute in He. discriminate.
  - reflexivity.
  - reflexivity.
Qed.

(** C6, as the specification has it, fails here: the claimer connected
    while the invitation of token 5 was idle, the invitation has since been
    deleted ([info] raises [InvitationAlreadyDeletedError] for it), and
    [invite_info] on that connection replies with the details of the
    invitation: the reply has no [already_deleted] status and the handler does
    not raise. It is so even when the invitation the handshake fetched reads
    [DELETED]. *)
Lemma invite_info_after_delete_counterexample :
  let w := scripted_world after_delete [] in
  let details :=
    rep_dump invite_info_serializer
      {[ "type" := VType DEVICE;
         "greeter_user_id" := VUserID "alice";
         "greeter_human_handle" := VHandle None ]} in
  let run := api_invite_info (claimer_5 IDLE) blank_msg w in
  (info "Org" 5%N (backend w)).1 = inl InvitationAlreadyDeletedError
  ∧ run.1 = Returned details
  ∧ ¬ (∃ rep, run.1 = Returned rep
              ∧ Reply_status rep = Some (VStr "already_deleted"))
  ∧ run.1 ≠ Raised InvitationAlreadyDeletedError
  ∧ Invitation_status (Invited.invitation (claimer_5 DELETED)) = DELETED
  ∧ (api_invite_info (claimer_5 DELETED) blank_msg w).1 = Returned details.
Proof.
  cbn zeta. split_and!; try reflexivity.
  - intros (rep & Hrep & Hstatus). injection Hrep as <-.
    vm_compute in Hstatus. discriminate.
  - discriminate.
Qed.


(** * Further properties *)

(** ** The claimer presence tracker, continued *)

Lemma claimers_ready_lookup_on_status_changed m event o g t st o' :
  _on_status_changed m event o g t st !! o'
  = if decide (o = o')
    then Some (if decide (st = READY) then claimers_of m o ∪ {[t]}
               else claimers_of m o ∖ {[t]})
    else m !! o'.
Proof.
  unfold _on_status_changed.
  destruct (decide (st = READY)); rewrite lookup_insert; by case_decide.
Qed.

(** Equalities between sets built with unions and differences of singletons,
    element by element. *)
Ltac by_elements :=
  apply set_eq; intros ?;
  repeat first [ rewrite elem_of_union | rewrite elem_of_difference
               | rewrite elem_of_singleton | rewrite elem_of_empty ];
  intuition congruence.

(** X1. Deliveries of [invite.status_changed] events about different
    invitations (another organization, or another token) can be swapped
    without changing the tracker, and delivering an event a second time in a
    row changes nothing. *)
Theorem status_changed_deliveries_commute m ev1 ev2 :
  (sc_organization_id ev1 ≠ sc_organization_id ev2 ∨ sc_token ev1 ≠ sc_token ev2 →
   deliver_status_changed (deliver_status_changed m ev1) ev2
   = deliver_status_changed (deliver_status_changed m ev2) ev1)
  ∧ deliver_status_changed (deliver_status_changed m ev1) ev1
    = deliver_status_changed m ev1.
Proof.
  destruct ev1 as [o1 g1 t1 st1], ev2 as [o2 g2 t2 st2].
  unfold deliver_status_changed. cbn. split.
  - intros Hdiff. apply map_eq. intros o.
    rewrite !claimers_ready_lookup_on_status_changed.
    unfold claimers_of. rewrite !claimers_ready_lookup_on_status_changed.
    repeat case_decide; subst; cbn; try reflexivity; try congruence;
      f_equal; by_elements.
  - apply map_eq. intros o.
    rewrite !claimers_ready_lookup_on_status_changed.
    unfold claimers_of. rewrite !claimers_ready_lookup_on_status_changed.
    repeat case_decide; subst; cbn; try reflexivity; try congruence;
      f_equal; by_elements.
Qed.

Lemma dom_deliver_status_changed m ev :
  dom (deliver_status_changed m ev) = dom m ∪ {[sc_organization_id ev]}.
Proof.
  unfold deliver_status_changed, _on_status_changed.
  case_decide; rewrite dom_insert_L; by_elements.
Qed.

(** A token found in the set of an organization got there by a [READY]
    event about it. *)
Lemma claimers_ready_after_sound evs o t :
  t ∈ claimers_of (claimers_ready_after evs) o →
  ∃ ev, ev ∈ evs ∧ concerns o t ev ∧ sc_status ev = READY.
Proof.
  induction evs as [|ev evs IH] using rev_ind.
  - cbn. unfold claimers_of. rewrite lookup_empty. cbn.
    intros Hin. by apply not_elem_of_empty in Hin.
  - rewrite claimers_ready_after_snoc. unfold deliver_status_changed.
    rewrite elem_of_on_status_changed.
    case_decide as Hsame.
    + intros Hready. exists ev. split; [apply elem_of_app; right; by left |].
      destruct Hsame as [-> ->]. by split.
    + intros Hin. destruct (IH Hin) as (ev' & Hev' & Hconcerns & Hready).
      exists ev'. split; [apply elem_of_app; by left | done].
Qed.

(** X2. After any sequence of [invite.status_changed] events, the
    organizations that have an entry in the tracker are exactly the ones named
    by an event, whatever its status: an event that is not [READY] about an
    organization met for the first time leaves an entry behind, with an empty
    set. A token is in a set only if some event about it had status
    [READY]; so an organization named by events and never by a [READY] one has
    an entry that is the empty set, and an organization no event names has no
    entry. *)
Theorem claimers_ready_entries evs :
  dom (claimers_ready_after evs) = organizations_of evs
  ∧ (∀ o t, t ∈ claimers_of (claimers_ready_after evs) o →
       ∃ ev, ev ∈ evs ∧ concerns o t ev ∧ sc_status ev = READY)
  ∧ (∀ o, o ∈ organizations_of evs →
       (∀ ev, ev ∈ evs → sc_organization_id ev = o → sc_status ev ≠ READY) →
       claimers_ready_after evs !! o = Some ∅)
  ∧ (∀ o, o ∉ organizations_of evs → claimers_ready_after evs !! o = None).
Proof.
  assert (dom (claimers_ready_after evs) = organizations_of evs) as Hdom.
  { unfold organizations_of.
    induction evs as [|ev evs IH] using rev_ind;
      [unfold claimers_ready_after; cbn; by rewrite dom_empty_L |].
    rewrite claimers_ready_after_snoc, dom_deliver_status_changed, IH.
    rewrite fmap_app, list_to_set_app_L. cbn. by_elements. }
  split_and!.
  - exact Hdom.
  - intros o t. apply claimers_ready_after_sound.
  - intros o Ho Hidle. rewrite <- Hdom in Ho.
    apply elem_of_dom in Ho as [X HX]. rewrite HX. f_equal.
    apply set_eq. intros t. split; [| intros Hin; by apply not_elem_of_empty in Hin].
    intros Hin.
    destruct (claimers_ready_after_sound evs o t) as (ev & Hev & [Ho' _] & Hready).
    { unfold claimers_of. by rewrite HX. }
    by destruct (Hidle ev Hev Ho').
  - intros o Ho. rewrite <- Hdom in Ho. by apply not_elem_of_dom.
Qed.

(** ** [conduit_exchange], continued *)

Section ExchangeAccounting.
Context {S : Type} `{!InviteBackend S}.
Implicit Types (w : World S) (listen_ctx : ConduitListenCtx.t).

(** The state of the implementation after the rounds that took the given
    resumptions: before each listen, what the other requests did in the
    meantime. *)
Lemma wait_and_listen_accounting listen_ctx pending w :
  wakeups w = pending →
  ∃ consumed log,
    pending = consumed ++ wakeups (wait_and_listen listen_ctx pending w).2
    ∧ calls (wait_and_listen listen_ctx pending w).2 = calls w ++ log
    ∧ length (listens_of log) = length consumed
    ∧ seconds_waited log = sum_list (waited <$> consumed)
    ∧ backend (wait_and_listen listen_ctx pending w).2
      = foldl (λ s wk, (_conduit_listen listen_ctx (meanwhile wk s)).2)
          (backend w) consumed
    ∧ ((wait_and_listen listen_ctx pending w).1 = Blocked →
       wakeups (wait_and_listen listen_ctx pending w).2 = []).
Proof.
  revert w. induction pending as [|wk later IH]; intros w Hw; cbn [wait_and_listen].
  - exists [], [WaiterWait None]. cbn. by rewrite Hw.
  - unfold call_conduit_listen, record_call. cbn [backend wakeups calls].
    destruct (_conduit_listen listen_ctx (meanwhile wk (backend w)))
      as [[e | [peer_payload |]] s] eqn:Hlisten; cbn [fst snd].
    + exists [wk]. eexists. cbn [wakeups calls backend].
      split_and!; [done | by rewrite <- !app_assoc | done | cbn; lia | | done].
      cbn. by rewrite Hlisten.
    + exists [wk]. eexists. cbn [wakeups calls backend].
      split_and!; [done | by rewrite <- !app_assoc | done | cbn; lia | | done].
      cbn. by rewrite Hlisten.
    + match goal with |- context [wait_and_listen listen_ctx later ?w3] =>
        destruct (IH w3 eq_refl)
          as (consumed & log & Hleft & Hlog & Hlistens & Hseconds & Hbackend & Hblocked)
      end.
      exists (wk :: consumed),
        (WaiterWait (Some (waited wk)) :: WaiterClear
         :: ConduitListen listen_ctx (inr None) :: log).
      split_and!.
      * cbn. by rewrite <- Hleft.
      * rewrite Hlog. cbn [calls]. by rewrite <- !app_assoc.
      * unfold listens_of in *. cbn. by rewrite Hlistens.
      * unfold seconds_waited in *. cbn. by rewrite Hseconds.
      * rewrite Hbackend. cbn. by rewrite Hlisten.
      * exact Hblocked.
Qed.

(** X3. A call of [conduit_exchange] takes the resumptions of its wait
    from the front of those to come and leaves the others untouched; it makes
    exactly one [_conduit_listen] call per resumption it took, none before the
    first, and the seconds it spent suspended are those of the resumptions it
    took. When the talk raises it takes none and the implementation is left as
    the talk left it; otherwise the implementation ends in the state reached
    from the talk through, for each resumption taken, what happened in the
    meantime and then the listen. A call that stays suspended has taken every
    resumption. *)
Theorem conduit_exchange_accounting organization_id greeter token state payload w :
  let run := conduit_exchange organization_id greeter token state payload w in
  let talk := _conduit_talk organization_id greeter token state payload (backend w) in
  ∃ consumed,
    wakeups w = consumed ++ wakeups run.2
    ∧ length (listens_of (calls_since w run.2)) = length consumed
    ∧ seconds_waited (calls_since w run.2) = sum_list (waited <$> consumed)
    ∧ (run.1 = Blocked → wakeups run.2 = [])
    ∧ match talk.1 with
      | inl _ => consumed = [] ∧ backend run.2 = talk.2
      | inr listen_ctx =>
          backend run.2
          = foldl (λ s wk, (_conduit_listen listen_ctx (meanwhile wk s)).2)
              talk.2 consumed
      end.
Proof.
  cbn zeta.
  destruct (_conduit_talk organization_id greeter token state payload (backend w))
    as [[e | listen_ctx] s] eqn:Htalk; cbn [fst snd].
  - exists []. unfold calls_since.
    unfold conduit_exchange, with_waiter_on, mbind, M_bind, call_conduit_talk,
      record_call. cbn [backend wakeups calls]. rewrite Htalk.
    cbn [fst snd backend wakeups calls].
    rewrite <- !app_assoc, drop_app_length. by cbn.
  - rewrite (conduit_exchange_after_talk _ _ _ _ _ _ _ _ Htalk). cbn zeta.
    match goal with |- context [wait_and_listen listen_ctx ?p ?w1] =>
      destruct (wait_and_listen_accounting listen_ctx p w1 eq_refl)
        as (consumed & log & Hleft & Hlog & Hlistens & Hseconds & Hbackend & Hblocked);
      destruct (wait_and_listen listen_ctx p w1) as [out w2]
    end.
    cbn [fst snd backend wakeups calls] in *.
    exists consumed. unfold calls_since.
    assert (∀ l, l = calls w2 ∨ l = calls w2 ++ [WaiterExit] →
              length (listens_of (drop (length (calls w)) l)) = length consumed
              ∧ seconds_waited (drop (length (calls w)) l)
                = sum_list (waited <$> consumed)) as Hnew.
    { intros l [-> | ->]; rewrite Hlog, <- !app_assoc, drop_app_length;
        unfold listens_of, seconds_waited in *; cbn;
        rewrite ?omap_app; cbn; rewrite ?app_nil_r; done. }
    destruct out; cbn [fst snd backend wakeups calls record_call];
      (split_and!;
       [ done | apply (Hnew _); auto | apply (Hnew _); auto | done | done ]).
Qed.

End ExchangeAccounting.

(** ** The conduit-step handlers, continued *)

Section CommandFacts.
Context {S : Type} `{!InviteBackend S}.
Implicit Types (w : World S) (listen_ctx : ConduitListenCtx.t).

Lemma loop_rounds_waiters listen_ctx log out :
  loop_rounds listen_ctx log out →
  waiter_events log = waiter_events (on_leaving out)
  ∧ ∀ event filter, WaiterOn event filter ∉ log.
Proof.
  induction 1 as [| seconds p | seconds e | seconds log out Hrounds [IHw IHn]];
    (split; [done |]); intros event filter Hin;
    repeat (apply elem_of_cons in Hin as [Hin | Hin]; [discriminate |]);
    solve [ by apply elem_of_nil in Hin | by apply IHn in Hin ].
Qed.

(** What one call of [conduit_exchange] adds to the log. *)
Lemma conduit_exchange_digest o g t s p w :
  ∃ new,
    calls (conduit_exchange o g t s p w).2 = calls w ++ new
    ∧ exchanges_of new = [(o, g, t, s, p)]
    ∧ waiter_events new
      = true :: waiter_events (on_leaving (conduit_exchange o g t s p w).1)
    ∧ ∀ event filter, WaiterOn event filter ∈ new →
        event = "invite.conduit_updated" ∧ filter = _conduit_updated_filter o t.
Proof.
  destruct (conduit_exchange_run o g t s p w) as (log & Hcalls & Hout).
  eexists. split; [exact Hcalls |].
  assert (exchanges_of log = [] ∧
          waiter_events log = waiter_events (on_leaving (conduit_exchange o g t s p w).1)
          ∧ ∀ event filter, WaiterOn event filter ∉ log) as (Hex & Hwe & Hon).
  { destruct (_conduit_talk o g t s p (backend w)).1.
    - destruct Hout as [-> ->]. split_and!; [done | done |].
      intros event filter Hin.
      apply elem_of_cons in Hin as [Hin | Hin]; [discriminate |].
      by apply elem_of_nil in Hin.
    - split; [by eapply loop_rounds_no_talk | by eapply loop_rounds_waiters]. }
  split_and!.
  - unfold exchanges_of in *. cbn. by rewrite Hex.
  - unfold waiter_events in *. cbn. by rewrite Hwe.
  - intros event filter Hin. apply elem_of_cons in Hin as [Heq | Hin].
    + by injection Heq as -> ->.
    + apply elem_of_cons in Hin as [Heq | Hin]; [discriminate |].
      by apply Hon in Hin.
Qed.

(** What two chained calls of [conduit_exchange] add to the log. *)
Lemma chained_exchanges_digest o g t s1 p1 s2 p2 w :
  let both := (_ ← conduit_exchange o g t s1 p1; conduit_exchange o g t s2 p2) w in
  ∃ new,
    calls both.2 = calls w ++ new
    ∧ (exchanges_of new = [(o, g, t, s1, p1)]
       ∨ exchanges_of new = [(o, g, t, s1, p1); (o, g, t, s2, p2)])
    ∧ (waiter_events new = true :: waiter_events (on_leaving both.1)
       ∨ waiter_events new = [true; false; true] ++ waiter_events (on_leaving both.1))
    ∧ ∀ event filter, WaiterOn event filter ∈ new →
        event = "invite.conduit_updated" ∧ filter = _conduit_updated_filter o t.
Proof.
  cbn zeta. unfold mbind, M_bind.
  destruct (conduit_exchange_digest o g t s1 p1 w) as (new1 & Hc1 & He1 & Hw1 & Ho1).
  destruct (conduit_exchange o g t s1 p1 w) as [[discarded | e |] w1];
    cbn [fst snd on_leaving] in *.
  - destruct (conduit_exchange_digest o g t s2 p2 w1) as (new2 & Hc2 & He2 & Hw2 & Ho2).
    exists (new1 ++ new2). split_and!.
    + by rewrite Hc2, Hc1, app_assoc.
    + right. unfold exchanges_of in *. by rewrite omap_app, He1, He2.
    + right. unfold waiter_events in *. by rewrite omap_app, Hw1, Hw2.
    + intros event filter [Hin | Hin]%elem_of_app; auto.
  - exists new1. split_and!; auto.
  - exists new1. split_and!; auto.
Qed.

(** What the handler of a command adds to the log. *)
Lemma api_conduit_cmd_digest cmd w :
  ∃ new,
    calls (api_conduit_cmd cmd w).2 = calls w ++ new
    ∧ (∀ x, x ∈ exchanges_of new → x.1.1 = cmd_caller cmd)
    ∧ ((∃ a, exchanges_of new = [a])
       ∨ (∃ a b, exchanges_of new = [a; b]
                 ∧ NEXT_CONDUIT_STATE !! a.1.2 = Some b.1.2
                 ∧ b.2 = [] ∧ chains cmd))
    ∧ (waiter_events new = true :: waiter_events (on_leaving (api_conduit_cmd cmd w).1)
       ∨ waiter_events new
         = [true; false; true] ++ waiter_events (on_leaving (api_conduit_cmd cmd w).1))
    ∧ ∀ event filter, WaiterOn event filter ∈ new →
        event = "invite.conduit_updated"
        ∧ filter = _conduit_updated_filter (cmd_caller cmd).1.1 (cmd_caller cmd).2.
Proof.
  rewrite api_conduit_cmd_table. cbn [fst snd].
  assert (∀ out : Outcome bytes,
            on_leaving (table_reply cmd out) = on_leaving out) as Hleaving.
  { intros [p | [] |]; try reflexivity.
    cbn [table_reply].
    by destruct (table_payload_field cmd p) as [e | [[field v] |]]. }
  rewrite Hleaving.
  destruct cmd as [c m | c m | c m | c m | c m | c m | c m | c m | c m | c m | c m | c m];
    cbn [table_exchanges cmd_caller]; unfold as_claimer, as_greeter,
      invited_caller, authenticated_caller; cbn [fst snd].
  all: first
    [ lazymatch goal with
      |- context [mbind (λ _, conduit_exchange _ _ _ ?s2 ?p2)
                    (conduit_exchange ?o ?g ?t ?s1 ?p1) ?w0] =>
        destruct (chained_exchanges_digest o g t s1 p1 s2 p2 w0)
          as (new & Hc & He & Hw & Ho)
      end;
      exists new;
      (split_and!;
       [ exact Hc
       | destruct He as [-> | ->]; intros x Hx;
         repeat (apply elem_of_cons in Hx as [-> | Hx]; [done |]);
         by apply elem_of_nil in Hx
       | destruct He as [-> | ->];
         [ left; by eexists
         | right; do 2 eexists; split_and!; [done | done | done |];
           unfold chains; eauto ]
       | exact Hw
       | exact Ho ])
    | lazymatch goal with |- context [conduit_exchange ?o ?g ?t ?s ?p ?w0] =>
        destruct (conduit_exchange_digest o g t s p w0) as (new & Hc & He & Hw & Ho)
      end;
      exists new; rewrite He;
      (split_and!;
       [ exact Hc
       | by intros x ->%list_elem_of_singleton
       | left; by eexists
       | by left
       | exact Ho ]) ].
Qed.

(** X4. Through the handler of any conduit-step command, waiters are
    registered and released in turn, never two registered at once, one or two
    in all. When the handler returns or raises, every waiter it registered has
    been released; when it stays suspended, the last one registered is the
    only one not released. *)
Theorem conduit_cmd_releases_its_waiters cmd w :
  let run := api_conduit_cmd cmd w in
  let events := waiter_events (calls_since w run.2) in
  match run.1 with
  | Blocked => events = [true] ∨ events = [true; false; true]
  | _ => events = [true; false] ∨ events = [true; false; true; false]
  end.
Proof.
  cbn zeta.
  destruct (api_conduit_cmd_digest cmd w) as (new & Hcalls & _ & _ & Hwaiters & _).
  rewrite (calls_since_app _ _ _ Hcalls).
  destruct (api_conduit_cmd cmd w).1; cbn [on_leaving waiter_events omap] in Hwaiters;
    exact Hwaiters.
Qed.

(** X5. The handler of a conduit-step command only ever exchanges as its
    caller: every [_conduit_talk] it makes is in the organization of its
    client context, for a handler of an invited connection with no greeter
    and the token of the invitation of the connection (the request's own
    token is not used), for a handler of an authenticated connection with
    the user of the connection as greeter and the token of the request. Every
    waiter it registers is on ["invite.conduit_updated"], filtered on that
    organization and token. It makes at least one exchange. *)
Theorem conduit_cmd_acts_as_its_caller cmd w :
  let new := calls_since w (api_conduit_cmd cmd w).2 in
  (∀ o g t s p, (o, g, t, s, p) ∈ exchanges_of new → (o, g, t) = cmd_caller cmd)
  ∧ (∀ event filter, WaiterOn event filter ∈ new →
       event = "invite.conduit_updated"
       ∧ filter = _conduit_updated_filter (cmd_caller cmd).1.1 (cmd_caller cmd).2)
  ∧ exchanges_of new ≠ [].
Proof.
  cbn zeta.
  destruct (api_conduit_cmd_digest cmd w) as (new & Hcalls & Hcaller & Hshape & _ & Hon).
  rewrite (calls_since_app _ _ _ Hcalls). split_and!.
  - intros o g t s p Hin. exact (Hcaller _ Hin).
  - exact Hon.
  - destruct Hshape as [[a ->] | (a & b & -> & _)]; discriminate.
Qed.

(** X6. The handler of a conduit-step command makes one exchange or two.
    It makes two only for the two chaining commands, and then both are made
    as the same caller, the second with the empty payload and at the state
    that [NEXT_CONDUIT_STATE] gives for the state of the first. *)
Theorem conduit_cmd_follows_NEXT cmd w :
  let exchanges := exchanges_of (calls_since w (api_conduit_cmd cmd w).2) in
  (∃ a, exchanges = [a])
  ∨ (∃ o g t s p s',
       exchanges = [(o, g, t, s, p); (o, g, t, s', [])]
       ∧ NEXT_CONDUIT_STATE !! s = Some s'
       ∧ chains cmd).
Proof.
  cbn zeta.
  destruct (api_conduit_cmd_digest cmd w) as (new & Hcalls & Hcaller & Hshape & _).
  rewrite (calls_since_app _ _ _ Hcalls).
  destruct Hshape as [[a ->] | (a & b & Hex & Hnext & Hempty & Hchains)].
  - left. by exists a.
  - right. rewrite Hex in *.
    destruct a as [[[[o g] t] s] p], b as [[[[o' g'] t'] s'] p'].
    cbn [fst snd] in *. subst p'.
    assert ((o, g, t) = cmd_caller cmd) as Ha
      by (apply (Hcaller (o, g, t, s, p)); by left).
    assert ((o', g', t') = cmd_caller cmd) as Hb
      by (apply (Hcaller (o', g', t', s', [])); right; by left).
    rewrite <- Ha in Hb. injection Hb as -> -> ->.
    by exists o, g, t, s, p, s'.
Qed.

End CommandFacts.

(** ** Deleting, listing and creating invitations from the widgets *)

Section WidgetFacts.
Context {S : Type} `{!InviteBackend S} `{!Store.t S}.
Implicit Types (w : World S).

(** X7. [api_invite_delete] deletes, as the user of the connection and in
    its organization, the invitation of the token of the request, with the
    reason of the request and the time read when it is called. It answers
    [ok] when the deletion returned, the bare [not_found] or
    [already_deleted] when the deletion raised the matching error, and lets
    any other exception through, [InvitationInvalidStateError] among them.
    The cancel job of either widget goes through it with the reason
    [CANCELLED]: it returns when the deletion returned, raises
    [JobResultError] with the status when the reply is [not_found] or
    [already_deleted], and lets the other exceptions through. Nothing is
    added to the log of conduit calls and no resumption is taken. *)
Theorem invite_delete_and_cancel_jobs (client_ctx : Authenticated.t) now device w :
  (∀ msg,
     let deleted :=
       Store.delete (Authenticated.organization_id client_ctx)
         (Authenticated.user_id client_ctx) (DeleteMsg.token msg) now
         (DeleteMsg.reason msg) (backend w) in
     api_invite_delete client_ctx msg now w
     = (match deleted.1 with
        | inr _ => Returned (invite_delete_rep_dump {[ "status" := VStr "ok" ]})
        | inl InvitationNotFoundError =>
            Returned (invite_delete_bare {[ "status" := VStr "not_found" ]})
        | inl InvitationAlreadyDeletedError =>
            Returned (invite_delete_bare {[ "status" := VStr "already_deleted" ]})
        | inl e => Raised e
        end,
        {| backend := deleted.2; wakeups := wakeups w; calls := calls w |}))
  ∧ (∀ token,
       let deleted :=
         Store.delete (Authenticated.organization_id client_ctx)
           (Authenticated.user_id client_ctx) token now CANCELLED (backend w) in
       let job :=
         (match deleted.1 with
          | inr _ => Returned (inr ())
          | inl InvitationNotFoundError =>
              Returned (inl (JobResultError (VStr "not_found")))
          | inl InvitationAlreadyDeletedError =>
              Returned (inl (JobResultError (VStr "already_deleted")))
          | inl e => Raised e
          end,
          {| backend := deleted.2; wakeups := wakeups w; calls := calls w |}) in
       @InviteDeviceWidget._do_cancel_invitation S (loopback client_ctx now)
         device token w = job
       ∧ @InviteUserWidget._do_cancel_invitation S (loopback client_ctx now)
           device token w = job).
Proof.
  split.
  - intros msg. cbn zeta.
    unfold api_invite_delete, try_except, call_delete.
    destruct (Store.delete _ _ _ _ _ _) as [[[] | []] s]; reflexivity.
  - intros token. cbn zeta.
    unfold InviteDeviceWidget._do_cancel_invitation,
      InviteUserWidget._do_cancel_invitation.
    cbn [Cmds.invite_delete loopback].
    unfold mbind, M_bind, api_invite_delete, try_except, call_delete.
    cbn [DeleteMsg.token DeleteMsg.reason].
    destruct (Store.delete _ _ _ _ _ _) as [[[] | []] s]; split; reflexivity.
Qed.

Lemma filter_invitation_items_user (invitations : list Invitation) :
  filter (λ inv, InvitationItem.type inv = USER) (invitation_item <$> invitations)
  = invitation_item <$> filter (λ item, is_user_invitation item) invitations.
Proof.
  induction invitations as [| [i | i] invitations IH]; [done | |].
  - rewrite fmap_cons, !filter_cons_True by done. by rewrite fmap_cons, IH.
  - rewrite fmap_cons, !filter_cons_False by (cbn; congruence). exact IH.
Qed.

Lemma filter_invitation_items_device (invitations : list Invitation) :
  filter (λ inv, InvitationItem.type inv = DEVICE) (invitation_item <$> invitations)
  = invitation_item <$> filter (λ item, negb (is_user_invitation item)) invitations.
Proof.
  induction invitations as [| [i | i] invitations IH]; [done | |].
  - rewrite fmap_cons, !filter_cons_False by (cbn; congruence). exact IH.
  - rewrite fmap_cons, !filter_cons_True by done. by rewrite fmap_cons, IH.
Qed.

(** X8. [api_invite_list] answers with one entry per invitation that
    [list] returned for the user of the connection, in the same order, with
    type [USER] and the claimer's e-mail for a user invitation, type
    [DEVICE] and no e-mail for a device invitation. Through it, the list job
    of the user widget returns the entries of the user invitations, in
    order, and the list job of the device widget returns the entry of the
    first device invitation only, or [None] when [list] returned no device
    invitation; every invitation is on one side or the other. *)
Theorem invite_list_and_list_jobs (client_ctx : Authenticated.t) now device w :
  let listed :=
    Store.list (Authenticated.organization_id client_ctx)
      (Authenticated.user_id client_ctx) (backend w) in
  let w' := {| backend := listed.2; wakeups := wakeups w; calls := calls w |} in
  let users := filter (λ item, is_user_invitation item) listed.1 in
  let devices := filter (λ item, negb (is_user_invitation item)) listed.1 in
  (∀ msg, api_invite_list client_ctx msg w
          = (Returned (invite_list_rep_dump (invitation_item <$> listed.1)), w'))
  ∧ (∀ i item, listed.1 !! i = Some item →
       InvitationItem.token (invitation_item item) = Invitation_token item
       ∧ InvitationItem.status (invitation_item item) = Invitation_status item
       ∧ match item with
         | AUserInvitation u =>
             InvitationItem.type (invitation_item item) = USER
             ∧ InvitationItem.claimer_email (invitation_item item)
               = Some (UserInvitation.claimer_email u)
         | ADeviceInvitation _ =>
             InvitationItem.type (invitation_item item) = DEVICE
             ∧ InvitationItem.claimer_email (invitation_item item) = None
         end)
  ∧ @InviteUserWidget._do_list_invitations S (loopback client_ctx now) device w
    = (Returned (inr (invitation_item <$> users)), w')
  ∧ @InviteDeviceWidget._do_list_invitations S (loopback client_ctx now) device w
    = (Returned (inr (invitation_item <$> head devices)), w')
  ∧ length users + length devices = length listed.1.
Proof.
  cbn zeta. split_and!.
  - intros msg. unfold api_invite_list, mbind, M_bind, call_list.
    by destruct (Store.list _ _ _).
  - intros i [u | d] _; done.
  - unfold InviteUserWidget._do_list_invitations. cbn [Cmds.invite_list loopback].
    unfold api_invite_list, mbind, M_bind, call_list, mret, M_ret.
    destruct (Store.list _ _ _) as [invitations s].
    cbn [fst snd InviteListRep.status InviteListRep.invitations ListReply_invitations].
    rewrite decide_False by (by intros ?).
    by rewrite filter_invitation_items_user.
  - unfold InviteDeviceWidget._do_list_invitations. cbn [Cmds.invite_list loopback].
    unfold api_invite_list, mbind, M_bind, call_list, mret, M_ret.
    destruct (Store.list _ _ _) as [invitations s].
    cbn [fst snd InviteListRep.status InviteListRep.invitations ListReply_invitations].
    rewrite decide_False by (by intros ?).
    rewrite filter_invitation_items_device.
    by destruct (filter _ invitations).
  - destruct (Store.list _ _ _) as [invitations s]. cbn [fst].
    induction invitations as [| [u | d] invitations IH]; [done | |].
    + rewrite !filter_cons. cbn.
      rewrite decide_True, decide_False by tauto. cbn. lia.
    + rewrite !filter_cons. cbn.
      rewrite decide_False, decide_True by tauto. cbn. lia.
Qed.

(** X9. Through [api_invite_new], the job that invites a device succeeds
    whatever the profile of the user of the connection: it calls
    [new_for_device] and returns an address of type [DEVICE] with the token of
    the invitation created. The job that invites a user raises
    [JobResultError] with status [not_allowed], nothing being created, when
    the profile is not [ADMIN]; for an [ADMIN] it calls [new_for_user] with
    the e-mail given and returns an address of type [USER] with the token of
    the invitation created. Neither job is ever answered
    [not_implemented]. *)
Theorem invite_jobs (client_ctx : Authenticated.t) now device w :
  (let created :=
     new_for_device (Authenticated.organization_id client_ctx)
       (Authenticated.user_id client_ctx) (backend w) in
   @InviteDeviceWidget._do_invite_device S (loopback client_ctx now) device w
   = (Returned
        (inr {| BackendInvitationAddr.backend_addr :=
                  LocalDevice.organization_addr device;
                BackendInvitationAddr.organization_id :=
                  LocalDevice.organization_id device;
                BackendInvitationAddr.invitation_type := DEVICE;
                BackendInvitationAddr.token :=
                  VToken (DeviceInvitation.token created.1) |}),
      {| backend := created.2; wakeups := wakeups w;
         calls := calls w
           ++ [NewForDevice (Authenticated.organization_id client_ctx)
                 (Authenticated.user_id client_ctx) created.1] |}))
  ∧ (∀ email,
       Authenticated.profile client_ctx ≠ ADMIN →
       @InviteUserWidget._do_invite_user S (loopback client_ctx now) device email w
       = (Returned (inl (JobResultError (VStr "not_allowed"))), w))
  ∧ (∀ email,
       Authenticated.profile client_ctx = ADMIN →
       let created :=
         new_for_user (Authenticated.organization_id client_ctx)
           (Authenticated.user_id client_ctx) email (backend w) in
       @InviteUserWidget._do_invite_user S (loopback client_ctx now) device email w
       = (Returned
            (inr {| BackendInvitationAddr.backend_addr :=
                      LocalDevice.organization_addr device;
                    BackendInvitationAddr.organization_id :=
                      LocalDevice.organization_id device;
                    BackendInvitationAddr.invitation_type := USER;
                    BackendInvitationAddr.token :=
                      VToken (UserInvitation.token created.1) |}),
          {| backend := created.2; wakeups := wakeups w;
             calls := calls w
               ++ [NewForUser (Authenticated.organization_id client_ctx)
                     (Authenticated.user_id client_ctx) email created.1] |})).
Proof.
  split_and!.
  - cbn zeta. unfold InviteDeviceWidget._do_invite_device.
    cbn [Cmds.invite_new loopback].
    unfold api_invite_new, mbind, M_bind, call_new_for_device. cbn [Msg.type].
    rewrite decide_False by done.
    by destruct (new_for_device _ _ _).
  - intros email Hprofile. unfold InviteUserWidget._do_invite_user.
    cbn [Cmds.invite_new loopback].
    unfold api_invite_new, mbind, M_bind. cbn [Msg.type Msg.send_email].
    rewrite decide_True by done. by rewrite decide_True.
  - intros email Hprofile. cbn zeta. unfold InviteUserWidget._do_invite_user.
    cbn [Cmds.invite_new loopback].
    unfold api_invite_new, mbind, M_bind, call_new_for_user.
    cbn [Msg.type Msg.send_email Msg.claimer_email default from_option id].
    rewrite decide_True by done.
    rewrite decide_False by (by intros ?).
    by destruct (new_for_user _ _ _ _).
Qed.

End WidgetFacts.

(** ** Fitting a text in a label, continued *)

Section ElideFacts.
Variable horizontalAdvance : list Ascii.ascii → Z.
Variable width : Z.

Implicit Types (k j fuel : nat).
Local Open Scope nat_scope.

Lemma take_take_shorter (text : list Ascii.ascii) k :
  k ≤ length text - 1 → take k (take (length text - 1) text) = take k text.
Proof. intros Hk. rewrite take_take. f_equal. lia. Qed.

Lemma shorten_finds fuel (text : list Ascii.ascii) :
  length text ≤ fuel →
  (∃ k, k ≤ length text ∧ fits horizontalAdvance width (take k text)) →
  ∃ k, k ≤ length text
       ∧ shorten horizontalAdvance fuel width text = Some (take k text)
       ∧ fits horizontalAdvance width (take k text)
       ∧ ∀ j, k < j ≤ length text → ¬ fits horizontalAdvance width (take j text).
Proof.
  unfold fits.
  revert text. induction fuel as [| fuel IH]; intros text Hfuel (k0 & Hk0 & Hfits).
  - assert (text = []) as -> by (apply nil_length_inv; lia).
    assert (k0 = 0) as -> by (cbn in Hk0; lia).
    exists 0. cbn in *. rewrite decide_False by lia.
    split_and!; [done | done | done | intros j; lia].
  - cbn [shorten]. case_decide as Hwide.
    + assert (k0 ≠ length text) as Hk0'.
      { intros ->. rewrite firstn_all in Hfits. lia. }
      destruct (IH (take (length text - 1) text)) as (k & Hk & Hshorten & Hk_fits & Hmax).
      { rewrite length_take. lia. }
      { exists k0. rewrite length_take. split; [lia |].
        rewrite take_take_shorter by lia. exact Hfits. }
      rewrite length_take in Hk, Hmax.
      exists k. rewrite take_take_shorter in Hshorten, Hk_fits by lia.
      split_and!; [lia | done | done |].
      intros j Hj. destruct (decide (j = length text)) as [-> | Hne].
      * rewrite firstn_all. lia.
      * specialize (Hmax j). rewrite take_take_shorter in Hmax by lia.
        apply Hmax. lia.
    + exists (length text). rewrite firstn_all.
      split_and!; [done | done | lia | intros j; lia].
Qed.

Lemma shorten_never fuel (text : list Ascii.ascii) :
  (∀ k, k ≤ length text → ¬ fits horizontalAdvance width (take k text)) →
  shorten horizontalAdvance fuel width text = None.
Proof.
  unfold fits.
  revert text. induction fuel as [| fuel IH]; intros text Hnone; cbn [shorten].
  - rewrite decide_True; [done |].
    specialize (Hnone (length text)). rewrite firstn_all in Hnone. lia.
  - rewrite decide_True.
    + apply IH. intros k Hk. rewrite length_take in Hk.
      rewrite take_take_shorter by lia. apply Hnone. lia.
    + specialize (Hnone (length text)). rewrite firstn_all in Hnone. lia.
Qed.

(** X10. The loop that shortens a text to the width of its label, run on a
    text that is too wide: if some prefix of the text, the empty one
    included, fits with the dots after it, the loop ends within as many turns
    as the text has characters and the label shows the longest such prefix
    followed by the dots, which is not wider than the label; if no prefix
    fits, as when the dots alone are wider than the label, the loop never
    ends, however many turns it is given. A text that is not too wide is
    shown as it is. *)
Theorem elided_longest_prefix_or_never (text : list Ascii.ascii) :
  ((width < horizontalAdvance text)%Z →
   (∃ k, k ≤ length text ∧ fits horizontalAdvance width (take k text)) →
   ∀ fuel, length text ≤ fuel →
     ∃ k, k ≤ length text
          ∧ elided horizontalAdvance fuel width text = Some (take k text ++ dots)
          ∧ fits horizontalAdvance width (take k text)
          ∧ ∀ j, k < j ≤ length text → ¬ fits horizontalAdvance width (take j text))
  ∧ ((width < horizontalAdvance text)%Z →
     (∀ k, k ≤ length text → ¬ fits horizontalAdvance width (take k text)) →
     ∀ fuel, elided horizontalAdvance fuel width text = None)
  ∧ ((horizontalAdvance text ≤ width)%Z →
     ∀ fuel, elided horizontalAdvance fuel width text = Some text).
Proof.
  unfold elided. split_and!.
  - intros Hwide Hsome fuel Hfuel. rewrite decide_True by done.
    destruct (shorten_finds fuel text Hfuel Hsome) as (k & Hk & -> & Hfits & Hmax).
    by exists k.
  - intros Hwide Hnone fuel. rewrite decide_True by done.
    by rewrite shorten_never.
  - intros Hfits fuel. rewrite decide_False by lia. done.
Qed.

End ElideFacts.

(** ** The further properties on concrete runs *)

(** Token 5 becomes ready, token 6 of the same organization goes idle: the
    two deliveries can be swapped. *)
Lemma status_changed_deliveries_commute_witness :
  let ready_5 := {| sc_organization_id := "Org"; sc_greeter := "alice";
                    sc_token := 5%N; sc_status := READY |} in
  let idle_6 := {| sc_organization_id := "Org"; sc_greeter := "alice";
                   sc_token := 6%N; sc_status := IDLE |} in
  deliver_status_changed (deliver_status_changed ∅ ready_5) idle_6
  = deliver_status_changed (deliver_status_changed ∅ idle_6) ready_5.
Proof.
  cbn zeta.
  apply (proj1 (status_changed_deliveries_commute ∅
           {| sc_organization_id := "Org"; sc_greeter := "alice";
              sc_token := 5%N; sc_status := READY |}
           {| sc_organization_id := "Org"; sc_greeter := "alice";
              sc_token := 6%N; sc_status := IDLE |})).
  right. cbn. discriminate.
Defined.

(** One event, not [READY], about an organization not met before: the
    organization gets an entry, with the empty set. *)
Lemma claimers_ready_entries_witness :
  claimers_ready_after
    [ {| sc_organization_id := "Org"; sc_greeter := "alice";
         sc_token := 5%N; sc_status := DELETED |} ] !! "Org"
  = Some ∅.
Proof.
  apply (proj1 (proj2 (proj2 (claimers_ready_entries
           [ {| sc_organization_id := "Org"; sc_greeter := "alice";
                sc_token := 5%N; sc_status := DELETED |} ])))).
  - unfold organizations_of. cbn. apply elem_of_union. left.
    by apply elem_of_singleton.
  - intros ev Hin _. apply list_elem_of_singleton in Hin. subst ev. cbn. discriminate.
Defined.

(** Three resumptions to come, of 3, 4 and 5 seconds; the peer answers at the
    second listen: two resumptions are taken, 7 seconds are spent, the third
    resumption is left. *)
Lemma conduit_exchange_accounting_witness :
  let w := scripted_world early_peer [3; 4; 5] in
  let run := conduit_exchange "Org" None 5%N STATE_1_WAIT_PEERS [Byte.x09] w in
  ∃ consumed,
    wakeups w = consumed ++ wakeups run.2
    ∧ length consumed = 2
    ∧ sum_list (waited <$> consumed) = 7
    ∧ length (wakeups run.2) = 1.
Proof.
  cbn zeta.
  destruct (conduit_exchange_accounting "Org" None 5%N STATE_1_WAIT_PEERS [Byte.x09]
              (scripted_world early_peer [3; 4; 5]))
    as (consumed & Hleft & Hlistens & Hseconds & _).
  exists consumed. split_and!.
  - exact Hleft.
  - rewrite <- Hlistens. vm_compute. reflexivity.
  - rewrite <- Hseconds. vm_compute. reflexivity.
  - vm_compute. reflexivity.
Defined.

(** A chaining command whose two exchanges are answered: two waiters, each
    released before the next is registered. *)
Lemma conduit_cmd_releases_its_waiters_witness :
  let w := scripted_world prompt_peer [1; 1] in
  let cmd := invite_2a_claimer_send_hashed_nonce (claimer_5 READY) blank_msg in
  waiter_events (calls_since w (api_conduit_cmd cmd w).2) = [true; false; true; false].
Proof.
  cbn zeta.
  pose proof (conduit_cmd_releases_its_waiters
                (invite_2a_claimer_send_hashed_nonce (claimer_5 READY) blank_msg)
                (scripted_world prompt_peer [1; 1])) as Hevents.
  vm_compute in Hevents. vm_compute.
  destruct Hevents as [Hone | Htwo]; [discriminate Hone | exact Htwo].
Defined.

(** The claimer of the invitation of token 5 sends a request that names
    token 0: the exchange is for token 5, with no greeter. *)
Lemma conduit_cmd_acts_as_its_caller_witness :
  let w := scripted_world early_peer [3; 4; 5] in
  let cmd := invite_1_claimer_wait_peer (claimer_5 READY) blank_msg in
  Forall (λ exchange, exchange.1.1 = ("Org", None, 5%N))
    (exchanges_of (calls_since w (api_conduit_cmd cmd w).2))
  ∧ exchanges_of (calls_since w (api_conduit_cmd cmd w).2) ≠ [].
Proof.
  cbn zeta.
  destruct (conduit_cmd_acts_as_its_caller
              (invite_1_claimer_wait_peer (claimer_5 READY) blank_msg)
              (scripted_world early_peer [3; 4; 5])) as (Hcaller & _ & Hsome).
  split; [| exact Hsome].
  apply Forall_forall. intros [[[[o g] t] s] p] Hin.
  exact (Hcaller o g t s p Hin).
Defined.

(** The greeter sends its nonce and both exchanges are answered: the second
    exchange is at the state that follows the first. *)
Lemma conduit_cmd_follows_NEXT_witness :
  let w := scripted_world prompt_peer [1; 1] in
  let cmd := invite_2b_greeter_send_nonce (alice STANDARD) blank_msg in
  ∃ o g t s p s',
    exchanges_of (calls_since w (api_conduit_cmd cmd w).2)
    = [(o, g, t, s, p); (o, g, t, s', [])]
    ∧ NEXT_CONDUIT_STATE !! s = Some s'.
Proof.
  cbn zeta.
  destruct (conduit_cmd_follows_NEXT
              (invite_2b_greeter_send_nonce (alice STANDARD) blank_msg)
              (scripted_world prompt_peer [1; 1]))
    as [[a Hone] | (o & g & t & s & p & s' & Htwo & Hnext & _)].
  - vm_compute in Hone. discriminate Hone.
  - by exists o, g, t, s, p, s'.
Defined.

(** Alice cancels the invitation of token 5, which is deleted already, then
    one of token 9, which she never made. *)
Lemma invite_delete_and_cancel_jobs_witness :
  (@InviteDeviceWidget._do_cancel_invitation Desk (loopback (alice ADMIN) 0)
     alice_device 5%N alice_desk).1
  = Returned (inl (JobResultError (VStr "already_deleted")))
  ∧ (@InviteUserWidget._do_cancel_invitation Desk (loopback (alice ADMIN) 0)
       alice_device 9%N alice_desk).1
    = Returned (inl (JobResultError (VStr "not_found"))).
Proof.
  split.
  - rewrite (proj1 (proj2 (invite_delete_and_cancel_jobs
                             (alice ADMIN) 0 alice_device alice_desk) 5%N)).
    vm_compute. reflexivity.
  - rewrite (proj2 (proj2 (invite_delete_and_cancel_jobs
                             (alice ADMIN) 0 alice_device alice_desk) 9%N)).
    vm_compute. reflexivity.
Defined.

(** Alice has a user invitation and two device invitations: the device
    widget gets the first device invitation, the deleted one of token 5, and
    the user widget the user invitation. *)
Lemma invite_list_and_list_jobs_witness :
  (@InviteDeviceWidget._do_list_invitations Desk (loopback (alice ADMIN) 0)
     alice_device alice_desk).1
  = Returned (inr (Some {| InvitationItem.type := DEVICE;
                           InvitationItem.token := 5%N;
                           InvitationItem.created_on := 0;
                           InvitationItem.claimer_email := None;
                           InvitationItem.status := DELETED |}))
  ∧ (@InviteUserWidget._do_list_invitations Desk (loopback (alice ADMIN) 0)
       alice_device alice_desk).1
    = Returned (inr [ {| InvitationItem.type := USER;
                         InvitationItem.token := 4%N;
                         InvitationItem.created_on := 0;
                         InvitationItem.claimer_email := Some "zack@example.com";
                         InvitationItem.status := IDLE |} ]).
Proof.
  destruct (invite_list_and_list_jobs (alice ADMIN) 0 alice_device alice_desk)
    as (_ & _ & Husers & Hdevices & _).
  split.
  - rewrite Hdevices. vm_compute. reflexivity.
  - rewrite Husers. vm_compute. reflexivity.
Defined.

(** Alice, with the [STANDARD] profile, invites a user. *)
Lemma invite_jobs_witness :
  @InviteUserWidget._do_invite_user Desk (loopback (alice STANDARD) 0)
    alice_device "zack@example.com" alice_desk
  = (Returned (inl (JobResultError (VStr "not_allowed"))), alice_desk).
Proof.
  apply (proj1 (proj2 (invite_jobs (alice STANDARD) 0 alice_device alice_desk))).
  cbn. discriminate.
Defined.

(** In a font where every character is 10 wide, the dots alone are 30 wide:
    in a label of width 25 the loop never ends. *)
Lemma elided_longest_prefix_or_never_witness :
  elided ten_per_character 1000 25
    (String.list_ascii_of_string "parsec://example.com/Org")
  = None.
Proof.
  apply (proj1 (proj2 (elided_longest_prefix_or_never ten_per_character 25
                         (String.list_ascii_of_string "parsec://example.com/Org")))).
  - vm_compute. reflexivity.
  - intros k _. unfold fits, ten_per_character.
    rewrite length_app. cbn [dots String.list_ascii_of_string length]. lia.
Defined.
